(** * MAX-AI orchestrator: planner, parallel executor and fallback polisher

    A shallow embedding of [src/orchestrator/fast_planner.py],
    [src/orchestrator/parallel_executor.py] and the deterministic part of
    [src/orchestrator/result_polisher.py], with the properties of the
    three-stage pipeline stated and proved over it.

    Conventions of the embedding.
    - A Python [str] is modelled by its UTF-8 encoding, a Rocq [string].
      [sub in s] is a substring test on the encodings (UTF-8 is
      self-synchronising, so this is the test on code points); [len] and
      slices count code points, see [py_len] and [py_take].
    - Python [int] is [Z]; a [dict] with string keys whose order is never
      observed is a [gmap string _]; a [dict] whose order is observed
      ([results.values()]) is an association list in insertion order; a
      [set] of strings is a [gset string], iterated in an order fixed by
      the interpreter ([PyRuntime]).
    - [print] calls are not modelled, they do not influence any value; an
      expression evaluated only to be printed is modelled where evaluating
      it can raise. *)

From Stdlib Require Import ZArith Ascii String Sorted.
From stdpp Require Import base option list gmap strings pretty.

Local Open Scope string_scope.
Local Open Scope list_scope.
Local Open Scope Z_scope.

(** ** Text *)

Definition nl : string := String "010"%char EmptyString.
Definition dq : string := String "034"%char EmptyString.
Definition sq : string := String "039"%char EmptyString.

(** [sub in s] *)
Fixpoint str_in (sub s : string) : bool :=
  String.prefix sub s ||
  match s with
  | EmptyString => false
  | String _ s' => str_in sub s'
  end.

(** A byte that starts a code point: anything but a UTF-8 continuation
    byte [10xxxxxx]. *)
Definition cp_start (a : ascii) : bool :=
  let n := nat_of_ascii a in negb ((128 <=? n)%nat && (n <? 192)%nat).

(** [len(s)]: the number of code points. *)
Fixpoint py_len (s : string) : nat :=
  match s with
  | EmptyString => 0%nat
  | String a s' => ((if cp_start a then 1 else 0) + py_len s')%nat
  end.

(** [s[:n]]: the first [n] code points. A continuation byte belongs to
    the code point started before it. *)
Fixpoint py_take (n : nat) (s : string) : string :=
  match s with
  | EmptyString => EmptyString
  | String a s' =>
      if cp_start a
      then match n with
           | O => EmptyString
           | S n' => String a (py_take n' s')
           end
      else String a (py_take n s')
  end.

(** Values held in parameter dictionaries and returned by tools. [VObj]
    stands for any other object, carrying the text [str()] gives for it. *)
Inductive pyval :=
  | VNone
  | VInt (n : Z)
  | VStr (s : string)
  | VObj (shown : string).

Global Instance pyval_eq_dec : EqDecision pyval.
Proof. solve_decision. Defined.

(** [str(v)] *)
Definition py_str (v : pyval) : string :=
  match v with
  | VNone => "None"
  | VInt n => pretty n
  | VStr s => s
  | VObj shown => shown
  end.

(** Truth value of an optional string ([None] and [''] are false). *)
Definition truthy (s : string) : bool := negb (String.eqb s EmptyString).

(** ** Regular expressions and the text library

    The patterns of the source are written as syntax trees; each constant
    below quotes the pattern it transcribes. What [re] and the [str]
    methods compute is the interpreter's business: the planner is defined
    over any [TextLib], and [py_text] further down is an executable one. *)

Inductive citem :=
  | IDigit                      (* \d *)
  | ISpace                      (* \s *)
  | IChr (a : ascii)
  | IRng (lo hi : ascii).       (* lo-hi *)

Inductive regex :=
  | RLit (s : string)           (* literal text *)
  | RAny                        (* .  *)
  | RClass (cs : list citem)    (* [...] *)
  | RCat (r1 r2 : regex)
  | RAlt (r1 r2 : regex)        (* r1|r2 *)
  | RStar (r : regex)           (* r*  *)
  | RLazy (r : regex)           (* r*? *)
  | RGroup (r : regex)          (* (r), capturing *)
  | RWordB.                     (* \b *)

Definition RPlus (r : regex) : regex := RCat r (RStar r).
Definition RDigit : regex := RClass [IDigit].
Definition RSpace : regex := RClass [ISpace].

Fixpoint RAlts (l : list string) : regex :=
  match l with
  | [] => RLit EmptyString
  | [s] => RLit s
  | s :: l' => RAlt (RLit s) (RAlts l')
  end.

Fixpoint RSeq (l : list regex) : regex :=
  match l with
  | [] => RLit EmptyString
  | [r] => r
  | r :: l' => RCat r (RSeq l')
  end.

(** [a.*b] *)
Definition RGap (a b : string) : regex := RCat (RLit a) (RCat (RStar RAny) (RLit b)).
(** [.*b] *)
Definition RTail (b : string) : regex := RCat (RStar RAny) (RLit b).

Class TextLib := {
  (** [s.lower()] *)
  str_lower : string → string;
  (** [s.strip()] *)
  str_strip : string → string;
  (** [re.search(p, s)]: [None], or [group()] and [groups()] of the match *)
  re_search : regex → string → option (string * list string);
  (** [re.sub(p, repl, s, flags)]; the boolean is [re.IGNORECASE] *)
  re_sub : bool → regex → string → string → string;
  (** [re.findall(p, s)] for a pattern without groups *)
  re_findall : regex → string → list string;
}.

(** What the interpreter fixes for one process: the order in which a set
    of strings is iterated (it follows the strings' hashes), and the order
    in which the futures of a batch complete. *)
Class PyRuntime := {
  set_iter : gset string → list string;
  set_iter_perm : ∀ s, set_iter s ≡ₚ elements s;
  as_completed : ∀ {A : Type}, list A → list A;
  as_completed_perm : ∀ A (l : list A), as_completed l ≡ₚ l;
}.

(** ** Data model ([fast_planner.py]) *)

Inductive Intent :=
  | SEARCH | CALCULATE | CODE_EXECUTE | FILE_OP
  | DATA_ANALYSIS | WEB_SCRAPE | MULTI_STEP | SIMPLE_QA.

Global Instance Intent_eq_dec : EqDecision Intent.
Proof. solve_decision. Defined.

(** [intent.value] *)
Definition intent_value (i : Intent) : string :=
  match i with
  | SEARCH => "search"
  | CALCULATE => "calculate"
  | CODE_EXECUTE => "code_execute"
  | FILE_OP => "file_op"
  | DATA_ANALYSIS => "data_analysis"
  | WEB_SCRAPE => "web_scrape"
  | MULTI_STEP => "multi_step"
  | SIMPLE_QA => "simple_qa"
  end.

(** A task. The planner builds tasks whose [params] is a dictionary
    ([P := gmap string pyval]); the executor sees tasks whose [params] is a
    reference to a dictionary object ([P := loc]). *)
Record Task (P : Type) := mkTask {
  id : string;
  intent : Intent;
  tool : string;
  params : P;
  dependencies : gset string;
  priority : Z;
  estimated_time_ms : Z;
}.
Arguments mkTask {P}.
Arguments id {P}.
Arguments intent {P}.
Arguments tool {P}.
Arguments params {P}.
Arguments dependencies {P}.
Arguments priority {P}.
Arguments estimated_time_ms {P}.

Definition with_dependencies {P} (d : gset string) (t : Task P) : Task P :=
  mkTask (id t) (intent t) (tool t) (params t) d (priority t) (estimated_time_ms t).

Record ExecutionPlan (P : Type) := mkPlan {
  tasks : list (Task P);
  parallel_batches : list (list string);
  total_estimated_ms : Z;
  requires_llm_polish : bool;
}.
Arguments mkPlan {P}.
Arguments tasks {P}.
Arguments parallel_batches {P}.
Arguments total_estimated_ms {P}.
Arguments requires_llm_polish {P}.

Abbreviation dict := (gmap string pyval).

(** An element of [recent_turns]: a dictionary, or an object of another
    class, such as the chat messages the orchestrator puts there
    ([history_messages[-5:]] in [fast_agent_invoke]). Only a dictionary has
    a [get] method. *)
Inductive turn :=
  | TurnDict (entries : dict)
  | TurnObject (shown : string).

(** The planner's context dictionary: the keys [plan] reads. A missing
    key reads as the empty list. *)
Record Context := mkContext {
  uploaded_files : list string;
  recent_turns : list turn;
  recent_tool_results : list pyval;
}.

(** [{t.id: t for t in tasks}]: a later task replaces an earlier one of the
    same id. *)
Definition task_dict_of {P} (ts : list (Task P)) : gmap string (Task P) :=
  foldl (λ m t, <[id t := t]> m) ∅ ts.

(** [l.sort(key=..., reverse=True)]: stable, descending. *)
Fixpoint insert_desc {A} (key : A → Z) (x : A) (l : list A) : list A :=
  match l with
  | [] => [x]
  | y :: l' => if (key y <=? key x) then x :: y :: l' else y :: insert_desc key x l'
  end.

Definition sort_desc {A} (key : A → Z) (l : list A) : list A :=
  foldr (insert_desc key) [] l.

(** ** The planner ([FastPlanner]) *)

Module FastPlanner.

(** [self.intent_patterns], in the order of the dictionary literal. *)
Definition intent_patterns : list (Intent * list regex) :=
  [ (SEARCH,
      [ RAlts ["搜索"; "查找"; "找一下"; "查询"; "search"; "find"];
        (* 最新.*信息|.*进展|.*动态 *)
        RAlt (RGap "最新" "信息") (RAlt (RTail "进展") (RTail "动态")) ]);
    (CALCULATE,
      [ (* \d+\s*[\+\-\*\/]\s*\d+ *)
        RSeq [RPlus RDigit; RStar RSpace;
              RClass [IChr "+"; IChr "-"; IChr "*"; IChr "/"];
              RStar RSpace; RPlus RDigit];
        RAlts ["计算"; "求和"; "求积"; "sum"; "calculate"] ]);
    (CODE_EXECUTE,
      [ RAlts ["运行"; "执行"; "代码"; "python"; "javascript"];
        (* 写.*程序|生成.*脚本 *)
        RAlt (RGap "写" "程序") (RGap "生成" "脚本") ]);
    (FILE_OP,
      [ RAlts ["读取"; "保存"; "文件"; "file"; "csv"; "txt"; "json"];
        RAlts ["打开"; "写入"] ]);
    (DATA_ANALYSIS,
      [ RAlts ["分析"; "统计"; "对比"; "趋势"; "analyze"];
        (* 数据.*处理|.*可视化 *)
        RAlt (RGap "数据" "处理") (RTail "可视化") ]);
    (WEB_SCRAPE,
      [ RAlts ["抓取"; "爬取"; "网页"; "scrape"; "crawl"];
        (* 提取.*内容 *)
        RGap "提取" "内容" ]);
    (MULTI_STEP,
      [ RAlts ["然后"; "接着"; "并且"; "同时"];
        (* 首先.*其次|第一.*第二 *)
        RAlt (RGap "首先" "其次") (RGap "第一" "第二") ]) ].

(** [self.intent_to_tool.get(intent)] *)
Definition intent_to_tool (i : Intent) : option string :=
  match i with
  | SEARCH => Some "intelligent_search"
  | CALCULATE => Some "code_execution"
  | CODE_EXECUTE => Some "code_execution"
  | FILE_OP => Some "file_operations"
  | DATA_ANALYSIS => Some "data_analysis"
  | WEB_SCRAPE => Some "file_scraper"
  | MULTI_STEP | SIMPLE_QA => None
  end.

Definition _get_priority (i : Intent) : Z :=
  match i with
  | FILE_OP => 10
  | SEARCH => 8
  | WEB_SCRAPE => 8
  | DATA_ANALYSIS => 5
  | CODE_EXECUTE => 5
  | CALCULATE => 3
  | _ => 5
  end.

Definition _estimate_task_time (tool : string) : Z :=
  if String.eqb tool "intelligent_search" then 2000
  else if String.eqb tool "file_operations" then 100
  else if String.eqb tool "code_execution" then 1500
  else if String.eqb tool "data_analysis" then 2000
  else if String.eqb tool "file_scraper" then 3000
  else 1000.

Definition image_exts : list string :=
  [".jpg"; ".jpeg"; ".png"; ".gif"; ".webp"; ".bmp"].
Definition document_exts : list string :=
  [".txt"; ".docx"; ".doc"; ".pdf"; ".csv"; ".json"; ".py"; ".md"; ".html"; ".css"; ".js"].

(** [any(w in s for w in ws)] *)
Definition any_in (ws : list string) (s : string) : bool :=
  existsb (λ w, str_in w s) ws.

(** [f"task_{task_id}"] *)
Definition task_name (task_id : nat) : string := "task_" +:+ pretty task_id.

Section planner.
Context `{TextLib}.

(** The loop of [_classify_intent] over the uploaded files, with its two
    [break]s; [detected] is [detected_intents]. *)
Fixpoint scan_uploaded (query_lower : string) (detected : list Intent)
    (files : list string) : list Intent :=
  match files with
  | [] => detected
  | file_path :: rest =>
      let file_lower := str_lower file_path in
      if any_in image_exts file_lower then
        if negb (any_in ["搜索"; "计算"; "代码"; "执行"] query_lower)
        then detected ++ [FILE_OP]
        else scan_uploaded query_lower detected rest
      else if any_in document_exts file_lower then
        if bool_decide (FILE_OP ∈ detected) then detected else detected ++ [FILE_OP]
      else scan_uploaded query_lower detected rest
  end.

(** The rule-matching loop: an intent is appended when one of its patterns
    is found in the lowered query. *)
Definition match_patterns (query_lower : string) (detected : list Intent) : list Intent :=
  foldl (λ acc '(intent, patterns),
           if existsb (λ pattern, bool_decide (is_Some (re_search pattern query_lower))) patterns
           then acc ++ [intent] else acc)
        detected intent_patterns.

(** [l.remove(x)]: drops the first occurrence. *)
Fixpoint list_remove_first (x : Intent) (l : list Intent) : list Intent :=
  match l with
  | [] => []
  | y :: l' => if decide (x = y) then l' else y :: list_remove_first x l'
  end.

Definition continuation_keywords : list string :=
  ["继续"; "接着"; "然后"; "再"; "还有"; "上面"; "之前"; "刚才"].

(** [turn.get("tools_used", [])]; an object without [get] raises
    AttributeError, which [None] stands for. *)
Definition turn_get (t : turn) (key : string) (otherwise : pyval) : option pyval :=
  match t with
  | TurnDict entries =>
      Some (match entries !! key with Some v => v | None => otherwise end)
  | TurnObject _ => None
  end.

(** The block on continuation queries: for a query with a continuation
    keyword and a non-empty [recent_turns], [last_tools] is read from the
    last turn, to be printed. *)
Definition continuation_tools (query_lower : string) (context : Context)
    : option (option pyval) :=
  let is_continuation := any_in continuation_keywords query_lower in
  if is_continuation then
    match last (recent_turns context) with
    | Some last_turn =>
        last_tools ← turn_get last_turn "tools_used" (VObj "[]");
        Some (Some last_tools)
    | None => Some None
    end
  else Some None.

(** [None] stands for an exception. *)
Definition _classify_intent (query : string) (context : Context) : option (list Intent) :=
  let query_lower := str_lower query in
  let detected := scan_uploaded query_lower [] (uploaded_files context) in
  _ ← continuation_tools query_lower context;
  let detected := match_patterns query_lower detected in
  let detected :=
    if bool_decide (MULTI_STEP ∈ detected) then list_remove_first MULTI_STEP detected
    else detected in
  Some match detected with
       | [] => [SIMPLE_QA]
       | _ => detected
       end.

(** *** Parameter extractors *)

Definition noise_words : list string := ["搜索"; "查找"; "找一下"; "帮我"; "请"].

Definition _extract_search_params (query : string) (context : Context) : dict :=
  let clean_query :=
    foldl (λ clean word, re_sub true (RSeq [RWordB; RLit word; RWordB]) EmptyString clean)
          query noise_words in
  let clean_query :=
    if truthy (str_strip clean_query) then str_strip clean_query else str_strip query in
  <["query" := VStr clean_query]> (<["max_results" := VInt 5]> ∅).

(** [(\d+)\s*(?:到|至|~|-)\s*(\d+)] *)
Definition range_pattern : regex :=
  RSeq [RGroup (RPlus RDigit); RStar RSpace; RAlts ["到"; "至"; "~"; "-"];
        RStar RSpace; RGroup (RPlus RDigit)].

(** [[\d\+\-\*\/\(\)\s]+] *)
Definition math_pattern : regex :=
  RPlus (RClass [IDigit; IChr "+"; IChr "-"; IChr "*"; IChr "/"; IChr "("; IChr ")"; ISpace]).

(** The code text of the range branch. *)
Definition range_sum_code (start end_ : string) : string :=
  "# 计算 " +:+ start +:+ " 到 " +:+ end_ +:+ " 的和" +:+ nl +:+
  "result = sum(range(" +:+ start +:+ ", " +:+ end_ +:+ "+1))" +:+ nl +:+
  "print(f" +:+ dq +:+ start +:+ " 到 " +:+ end_ +:+ " 的和是: {result}" +:+ dq +:+ ")".

Definition expr_code (expr : string) : string :=
  "# 计算: " +:+ expr +:+ nl +:+
  "result = " +:+ expr +:+ nl +:+
  "print(f" +:+ dq +:+ "计算结果: {result}" +:+ dq +:+ ")".

(** [', '.join(l)] *)
Fixpoint join_comma (l : list string) : string :=
  match l with
  | [] => EmptyString
  | [x] => x
  | x :: l' => x +:+ ", " +:+ join_comma l'
  end.

Definition numbers_code (numbers : list string) : string :=
  "# 求和" +:+ nl +:+
  "result = sum([" +:+ join_comma numbers +:+ "])" +:+ nl +:+
  "print(f" +:+ dq +:+ "结果: {result}" +:+ dq +:+ ")".

Definition unknown_code (query : string) : string :=
  "print(" +:+ sq +:+ "无法识别的计算任务: " +:+ query +:+ sq +:+ ")".

Definition code_dict (code : string) : dict := <["code" := VStr code]> ∅.

(** The branches after the range branch. *)
Definition calc_rest (query : string) : dict :=
  match re_search math_pattern query with
  | Some (g, _) => code_dict (expr_code (str_strip g))
  | None =>
      let numbers := re_findall (RPlus RDigit) query in
      if (2 <=? length numbers)%nat then code_dict (numbers_code numbers)
      else code_dict (unknown_code query)
  end.

(** [range_match.groups()] has the two groups of [range_pattern]. *)
Definition _extract_calc_params (query : string) (context : Context) : dict :=
  match re_search range_pattern query with
  | Some (_, [start; end_]) =>
      if any_in ["和"; "求和"; "sum"; "加"] query
      then code_dict (range_sum_code start end_)
      else calc_rest query
  | _ => calc_rest query
  end.

(** [[a-zA-Z0-9_\-]+\.(csv|txt|json|xlsx|pdf|docx|doc)] *)
Definition file_pattern : regex :=
  RSeq [RPlus (RClass [IRng "a" "z"; IRng "A" "Z"; IRng "0" "9"; IChr "_"; IChr "-"]);
        RLit ".";
        RGroup (RAlts ["csv"; "txt"; "json"; "xlsx"; "pdf"; "docx"; "doc"])].

(** Truth value of [file_path]: [None] and the empty string are false. *)
Definition opt_truthy (o : option string) : bool :=
  match o with
  | Some s => truthy s
  | None => false
  end.

Definition _extract_file_params (query : string) (context : Context) : dict :=
  let file_path := head (uploaded_files context) in
  let file_path :=
    if opt_truthy file_path then file_path
    else match re_search file_pattern query with
         | Some (g, _) => Some ("data/uploads/" +:+ g)
         | None => file_path
         end in
  let operation :=
    if opt_truthy file_path then
      if any_in ["保存"; "写入"; "write"] query then "write" else "read"
    else
      if any_in ["读取"; "打开"; "查看"; "read"] query then "read"
      else if any_in ["保存"; "写入"; "write"] query then "write"
      else "list" in
  <["operation" := VStr operation]>
    (<["file_path" := VStr (if opt_truthy file_path then default EmptyString file_path
                            else "data/temp.txt")]> ∅).

Definition _extract_analysis_params (query : string) (context : Context) : dict :=
  let file_path :=
    match head (uploaded_files context) with
    | Some f => f
    | None => "None"
    end in
  let code :=
    nl +:+ "import pandas as pd" +:+ nl +:+
    "df = pd.read_csv(" +:+ sq +:+ file_path +:+ sq +:+ ")" +:+ nl +:+
    "print(df.describe())" +:+ nl +:+
    "print(df.head())" +:+ nl in
  code_dict (str_strip code).

(** [self.param_extractors.get(intent, lambda q, c: {})(query, context)] *)
Definition extract_params (i : Intent) (query : string) (context : Context) : dict :=
  match i with
  | SEARCH => _extract_search_params query context
  | CALCULATE => _extract_calc_params query context
  | FILE_OP => _extract_file_params query context
  | DATA_ANALYSIS => _extract_analysis_params query context
  | _ => ∅
  end.

(** *** Decomposition *)

Definition is_image (f : string) : bool := any_in image_exts (str_lower f).

(** [\[用户上传了文件:.*?\]] *)
Definition upload_note : regex :=
  RSeq [RLit "[用户上传了文件:"; RLazy RAny; RLit "]"].

Definition vision_task (query : string) (task_id : nat) (img_path : string) : Task dict :=
  let clean_query := str_strip (re_sub false upload_note EmptyString query) in
  let question := if truthy clean_query then VStr clean_query else VNone in
  mkTask (task_name task_id) FILE_OP "vision_analysis"
         (<["image_path" := VStr img_path]> (<["question" := question]> ∅))
         ∅ 1 8000.

(** The loop over [image_files]; [task_id] is the running counter. *)
Fixpoint vision_tasks (query : string) (task_id : nat) (imgs : list string) : list (Task dict) :=
  match imgs with
  | [] => []
  | img_path :: rest => vision_task query task_id img_path :: vision_tasks query (S task_id) rest
  end.

(** The loop over [intents], with its three [continue]s. *)
Fixpoint intent_tasks (query : string) (context : Context) (has_images : bool)
    (task_id : nat) (intents : list Intent) : list (Task dict) :=
  match intents with
  | [] => []
  | i :: rest =>
      if bool_decide (i = SIMPLE_QA) then intent_tasks query context has_images task_id rest
      else if bool_decide (i = FILE_OP) && has_images
      then intent_tasks query context has_images task_id rest
      else
        match intent_to_tool i with
        | None => intent_tasks query context has_images task_id rest
        | Some tool =>
            mkTask (task_name task_id) i tool (extract_params i query context)
                   ∅ (_get_priority i) (_estimate_task_time tool)
            :: intent_tasks query context has_images (S task_id) rest
        end
  end.

Definition _decompose_tasks (query : string) (intents : list Intent) (context : Context)
    : list (Task dict) :=
  let image_files := filter (λ f, is_image f = true) (uploaded_files context) in
  vision_tasks query 0 image_files ++
  intent_tasks query context (bool_decide (image_files ≠ [])) (length image_files) intents.

End planner.

(** *** Dependency inference *)

(** The inner loop of [_analyze_dependencies] for one task: the ids of the
    other FILE_OP tasks are added to its set. *)
Definition add_file_deps {P} (ts : list (Task P)) (task : Task P) : gset string :=
  foldl (λ deps other,
           if bool_decide (intent other = FILE_OP) && negb (String.eqb (id other) (id task))
           then deps ∪ {[id other]} else deps)
        (dependencies task) ts.

(** The tasks are updated in place; only [dependencies] is written and only
    [intent] and [id] are read, so each task sees the others as they were. *)
Definition _analyze_dependencies {P} (ts : list (Task P)) : list (Task P) :=
  map (λ task, if bool_decide (intent task = DATA_ANALYSIS)
               then with_dependencies (add_file_deps ts task) task
               else task) ts.

(** *** Batch scheduling *)

Section schedule.
Context `{PyRuntime} {P : Type}.

(** [not task.dependencies or task.dependencies.issubset(completed)];
    [task_dict[task_id]] is there for every id of [remaining]. *)
Definition is_ready (task_dict : gmap string (Task P)) (completed : gset string)
    (task_id : string) : bool :=
  match task_dict !! task_id with
  | Some task =>
      bool_decide (dependencies task = ∅) || bool_decide (dependencies task ⊆ completed)
  | None => false
  end.

(** One round of the [while remaining] loop: the batch it appends. *)
Definition next_batch (task_dict : gmap string (Task P)) (remaining : gset string)
    : list string :=
  let completed := dom task_dict ∖ remaining in
  let ready := List.filter (is_ready task_dict completed) (set_iter remaining) in
  let ready := match ready with [] => set_iter remaining | _ => ready end in
  sort_desc (λ tid, match task_dict !! tid with Some t => priority t | None => 0 end) ready.

(** The loop; every round removes its batch from [remaining], so
    [size remaining] rounds are enough. *)
Fixpoint schedule_loop (fuel : nat) (task_dict : gmap string (Task P))
    (remaining : gset string) : list (list string) :=
  match fuel with
  | O => []
  | S fuel' =>
      if decide (remaining = ∅) then []
      else
        let ready := next_batch task_dict remaining in
        ready :: schedule_loop fuel' task_dict (remaining ∖ list_to_set ready)
  end.

Definition _schedule_tasks (ts : list (Task P)) : list (list string) :=
  match ts with
  | [] => []
  | _ =>
      let task_dict := task_dict_of ts in
      let remaining := dom task_dict in
      schedule_loop (size remaining) task_dict remaining
  end.

End schedule.

(** *** Time estimate *)

(** [max(task_dict[tid].estimated_time_ms for tid in batch)]; [None] when
    Python raises (an empty batch, an unknown id). *)
Definition batch_time {P} (task_dict : gmap string (Task P)) (batch : list string) : option Z :=
  times ← mapM (λ tid, estimated_time_ms <$> task_dict !! tid) batch;
  match times with
  | [] => None
  | t :: times' => Some (foldl Z.max t times')
  end.

Definition _estimate_total_time {P} (batches : list (list string)) (ts : list (Task P))
    : option Z :=
  let task_dict := task_dict_of ts in
  foldl (λ total_ms batch,
           total ← total_ms; batch_time_ ← batch_time task_dict batch;
           Some (total + batch_time_))
        (Some 0) batches.

Definition _needs_polish (intents : list Intent) : bool := true.

(** *** [plan] *)

(** What a call of [plan] yields: the plan it returns and the elapsed time
    it prints. *)
Record PlanRun := mkPlanRun {
  returned : ExecutionPlan dict;
  printed_elapsed_ms : Z;
}.

(** [start_time] and [end_time] are the two clock readings, in
    milliseconds. [None] stands for an exception. *)
Definition plan `{TextLib} `{PyRuntime} (start_time end_time : Z)
    (user_query : string) (context : Context) : option PlanRun :=
  intents ← _classify_intent user_query context;
  let ts := _decompose_tasks user_query intents context in
  let ts := _analyze_dependencies ts in
  let batches := _schedule_tasks ts in
  total_time ← _estimate_total_time batches ts;
  Some (mkPlanRun (mkPlan ts batches total_time (_needs_polish intents))
                  (end_time - start_time)).

End FastPlanner.

(** ** An executable text library

    A backtracking matcher for the syntax trees above, working on the
    UTF-8 encoding: alternatives are tried left to right, [*] is greedy and
    [*?] lazy, and [re.search] returns the leftmost match. The classes are
    the ASCII part of Python's: [\d] is [0-9], [\s] and [strip] know the
    ASCII white space, [lower] maps [A-Z], and for [\b] every code point
    outside ASCII counts as a word character (as the CJK ideographs do).
    A capturing group is not put under a star by any pattern here. *)

Module PyText.

Definition byte_in (lo hi : nat) (a : ascii) : bool :=
  let n := nat_of_ascii a in ((lo <=? n) && (n <=? hi))%nat.

Definition is_digit (a : ascii) : bool := byte_in 48 57 a.
Definition is_space (a : ascii) : bool := byte_in 9 13 a || byte_in 28 32 a.
Definition is_word (a : ascii) : bool :=
  byte_in 48 57 a || byte_in 65 90 a || byte_in 97 122 a || byte_in 95 95 a || byte_in 128 255 a.

Definition lower_byte (a : ascii) : ascii :=
  if byte_in 65 90 a then ascii_of_nat (nat_of_ascii a + 32) else a.

Fixpoint lower (s : string) : string :=
  match s with
  | EmptyString => EmptyString
  | String a s' => String (lower_byte a) (lower s')
  end.

Fixpoint lstrip (s : string) : string :=
  match s with
  | String a s' => if is_space a then lstrip s' else s
  | EmptyString => EmptyString
  end.

Fixpoint rstrip (s : string) : string :=
  match s with
  | EmptyString => EmptyString
  | String a s' =>
      let r := rstrip s' in
      if is_space a && String.eqb r EmptyString then EmptyString else String a r
  end.

Definition strip (s : string) : string := rstrip (lstrip s).

Definition in_item (a : ascii) (c : citem) : bool :=
  match c with
  | IDigit => is_digit a
  | ISpace => is_space a
  | IChr b => Ascii.eqb a b
  | IRng lo hi => byte_in (nat_of_ascii lo) (nat_of_ascii hi) a
  end.

(** The matcher's position: the byte before it, the text after it, and the
    groups closed so far. *)
Record mstate := mkState {
  prev : option ascii;
  rest : string;
  caps : list string;
}.

(** The text between two positions of one string. *)
Definition consumed (before after : string) : string :=
  String.substring 0 (String.length before - String.length after) before.

(** Matches the literal [lit] at the position. *)
Fixpoint eat_lit (ic : bool) (lit : string) (p : option ascii) (s : string)
    : option (option ascii * string) :=
  match lit, s with
  | EmptyString, _ => Some (p, s)
  | String b lit', String a s' =>
      if (if ic then Ascii.eqb (lower_byte a) (lower_byte b) else Ascii.eqb a b)
      then eat_lit ic lit' (Some a) s' else None
  | String _ _, EmptyString => None
  end.

(** Drops the continuation bytes of the code point just entered. *)
Fixpoint eat_cont (p : option ascii) (s : string) : option ascii * string :=
  match s with
  | String a s' => if cp_start a then (p, s) else eat_cont (Some a) s'
  | EmptyString => (p, s)
  end.

Definition at_word_boundary (st : mstate) : bool :=
  let before := match prev st with Some a => is_word a | None => false end in
  let after := match rest st with String a _ => is_word a | EmptyString => false end in
  xorb before after.

Definition shorter (st' st : mstate) : bool :=
  (String.length (rest st') <? String.length (rest st))%nat.

Definition or_else {R} (x y : option R) : option R :=
  match x with
  | Some _ => x
  | None => y
  end.

Fixpoint rmatch {R} (ic : bool) (r : regex) (st : mstate) (k : mstate → option R)
    : option R :=
  match r with
  | RLit lit =>
      match eat_lit ic lit (prev st) (rest st) with
      | Some (p, s) => k (mkState p s (caps st))
      | None => None
      end
  | RAny =>
      match rest st with
      | String a s' =>
          if Ascii.eqb a "010" then None
          else let '(p, s) := eat_cont (Some a) s' in k (mkState p s (caps st))
      | EmptyString => None
      end
  | RClass cs =>
      match rest st with
      | String a s' =>
          if existsb (in_item a) cs then k (mkState (Some a) s' (caps st)) else None
      | EmptyString => None
      end
  | RCat r1 r2 => rmatch ic r1 st (λ st', rmatch ic r2 st' k)
  | RAlt r1 r2 => or_else (rmatch ic r1 st k) (rmatch ic r2 st k)
  | RStar r' =>
      (fix loop (n : nat) (st : mstate) : option R :=
         match n with
         | O => k st
         | S n' =>
             or_else (rmatch ic r' st (λ st', if shorter st' st then loop n' st' else None))
                     (k st)
         end) (String.length (rest st)) st
  | RLazy r' =>
      (fix loop (n : nat) (st : mstate) : option R :=
         match n with
         | O => k st
         | S n' =>
             or_else (k st)
                     (rmatch ic r' st (λ st', if shorter st' st then loop n' st' else None))
         end) (String.length (rest st)) st
  | RGroup r' =>
      rmatch ic r' st
        (λ st', k (mkState (prev st') (rest st') (caps st' ++ [consumed (rest st) (rest st')])))
  | RWordB => if at_word_boundary st then k st else None
  end.

(** A match found in a text: what precedes it, the match, its groups, and
    what follows. *)
Record found := mkFound {
  f_pre : string;
  f_match : string;
  f_groups : list string;
  f_post : string;
}.

(** The leftmost match at or after the position; matches start where a
    code point starts. *)
Fixpoint find (ic : bool) (r : regex) (p : option ascii) (s : string) : option found :=
  let here :=
    rmatch ic r (mkState p s []) (λ st', Some (mkFound EmptyString (consumed s (rest st')) (caps st') (rest st'))) in
  match s with
  | EmptyString => here
  | String a s' =>
      or_else (if cp_start a then here else None)
              (f ← find ic r (Some a) s';
               Some (mkFound (String a (f_pre f)) (f_match f) (f_groups f) (f_post f)))
  end.

Fixpoint last_byte (p : option ascii) (s : string) : option ascii :=
  match s with
  | EmptyString => p
  | String a s' => last_byte (Some a) s'
  end.

Definition search (r : regex) (s : string) : option (string * list string) :=
  f ← find false r None s; Some (f_match f, f_groups f).

(** Successive matches, each searched after the previous one; after an
    empty match the scan moves on by one byte. *)
Fixpoint scan (fuel : nat) (ic : bool) (r : regex) (p : option ascii) (s : string)
    : list found :=
  match fuel with
  | O => []
  | S fuel' =>
      match find ic r p s with
      | None => []
      | Some f =>
          let p' := last_byte p (f_pre f +:+ f_match f) in
          if String.eqb (f_match f) EmptyString then
            match f_post f with
            | EmptyString => [f]
            | String a post' =>
                mkFound (f_pre f) EmptyString (f_groups f) (String a EmptyString)
                :: scan fuel' ic r (Some a) post'
            end
          else mkFound (f_pre f) (f_match f) (f_groups f) EmptyString
               :: scan fuel' ic r p' (f_post f)
      end
  end.

(** The text left after the last match of a scan. *)
Fixpoint tail_after (fs : list found) (s : string) : string :=
  match fs with
  | [] => s
  | f :: fs' =>
      tail_after fs'
        (String.substring
           (String.length (f_pre f +:+ f_match f +:+ f_post f))
           (String.length s) s)
  end.

Definition sub (ic : bool) (r : regex) (repl s : string) : string :=
  let fs := scan (S (String.length s)) ic r None s in
  foldr (λ f acc, f_pre f +:+ repl +:+ f_post f +:+ acc) (tail_after fs s) fs.

Definition findall (r : regex) (s : string) : list string :=
  f_match <$> scan (S (String.length s)) false r None s.

End PyText.

Definition py_text : TextLib :=
  {| str_lower := PyText.lower;
     str_strip := PyText.strip;
     re_search := PyText.search;
     re_sub := PyText.sub;
     re_findall := PyText.findall |}.

(** ** Running generated code

    The [code_execution] tool hands the code text to a Python interpreter.
    [CodeTool.run] is Python's meaning of the program shape the range branch
    of [_extract_calc_params] emits, read back from the text:
    a comment line, [result = sum(range(A, B+1))] with decimal literals,
    and a [print] of an f-string ending in [{result}]. The result is what
    the program writes to standard output; other programs are outside this
    model ([None]). *)

Module CodeTool.

(** [s] without the prefix [p]. *)
Definition strip_prefix (p s : string) : option string :=
  if String.prefix p s
  then Some (String.substring (String.length p) (String.length s - String.length p) s)
  else None.

(** [s] cut at the first occurrence of [sep]. *)
Definition cut (sep s : string) : option (string * string) :=
  i ← String.index 0 sep s;
  Some (String.substring 0 i s,
        String.substring (i + String.length sep) (String.length s - (i + String.length sep)) s).

(** A decimal integer literal. *)
Fixpoint digits_value (acc : Z) (s : string) : option Z :=
  match s with
  | EmptyString => Some acc
  | String a s' =>
      if PyText.is_digit a
      then digits_value (10 * acc + Z.of_nat (nat_of_ascii a - 48)) s'
      else None
  end.

Definition literal (s : string) : option Z :=
  match s with
  | EmptyString => None
  | String "0" (String _ _) => None
  | _ => digits_value 0 s
  end.

(** [sum(range(a, b))] *)
Definition sum_range (a b : Z) : Z := foldr Z.add 0 (seqZ a (b - a)).

Definition run (code : string) : option string :=
  '(comment, body) ← cut nl code;
  '(assign, output) ← cut nl body;
  _ ← strip_prefix "#" comment;
  args ← strip_prefix "result = sum(range(" assign;
  '(a, rest) ← cut ", " args;
  '(b, close) ← cut "+1))" rest;
  _ ← guard (close = EmptyString);
  start ← literal a;
  stop ← literal b;
  fmt ← strip_prefix ("print(f" +:+ dq) output;
  '(text, tail) ← cut "{result}" fmt;
  _ ← guard (tail = dq +:+ ")");
  Some (text +:+ pretty (sum_range start (stop + 1)) +:+ nl).

End CodeTool.

(** ** Insertion-ordered dictionaries

    [results] is a Python [dict] whose order [values()] exposes: a new key
    goes to the end, an existing key keeps its place. *)

Abbreviation odict V := (list (string * V)).

Fixpoint od_get {V} (k : string) (d : odict V) : option V :=
  match d with
  | [] => None
  | (k', v) :: d' => if String.eqb k k' then Some v else od_get k d'
  end.

(** [d[k] = v] *)
Fixpoint od_set {V} (k : string) (v : V) (d : odict V) : odict V :=
  match d with
  | [] => [(k, v)]
  | (k', v') :: d' => if String.eqb k k' then (k, v) :: d' else (k', v') :: od_set k v d'
  end.

(** [d.update(d2)] *)
Definition od_update {V} (d d2 : odict V) : odict V :=
  foldl (λ acc '(k, v), od_set k v acc) d d2.

(** [d.values()] *)
Definition od_values {V} (d : odict V) : list V := snd <$> d.

(** ** The executor ([parallel_executor.py]) *)

Record ToolResult := mkResult {
  task_id : string;
  r_tool : string;              (* the field [tool] *)
  success : bool;
  output : pyval;
  error : option string;
  elapsed_ms : Z;
}.

(** An exception: [type(e).__name__] and [str(e)]. *)
Record exc := mkExc {
  exc_type : string;
  exc_str : string;
}.

(** How a call of a tool ends, and how long it takes. *)
Inductive ending :=
  | Returns (v : pyval)
  | Raises (e : exc).

Record ToolRun := mkRun {
  run_ms : Z;
  ended : ending;
}.

(** A tool is called with the dictionary unpacked into keyword arguments:
    it receives the entries, not the dictionary object. *)
Definition tool_fn : Type := dict → ToolRun.

(** What [pathlib] answers; a [Path] is modelled by its [str()]. *)
Class FileSys := {
  (** [str(Path(s))] *)
  path_of : string → string;
  path_exists : string → bool;
  (** [str(p.resolve())] *)
  path_resolve : string → string;
  path_is_absolute : string → bool;
}.

(** *** Dictionary objects

    The [params] of a task the executor runs is a reference to a dictionary
    object; the heap maps references to contents. *)

Abbreviation loc := positive.
Abbreviation heap := (gmap loc dict).

Definition M (A : Type) : Type := heap → A * heap.

Global Instance M_ret : MRet M := λ A x h, (x, h).
Global Instance M_bind : MBind M := λ A B f m h, let '(x, h') := m h in f x h'.

(** [d.copy()]: a new object with the entries of [d]. *)
Definition dict_copy (d : loc) : M loc :=
  λ h, let d' := fresh (dom h) in (d', <[d' := default ∅ (h !! d)]> h).

(** [d[k] = v] *)
Definition dict_set (d : loc) (k : string) (v : pyval) : M unit :=
  λ h, (tt, alter (<[k := v]>) d h).

(** [d.get(k)] *)
Definition dict_get (d : loc) (k : string) : M (option pyval) :=
  λ h, (h !! d ≫= (.!! k), h).

(** The entries of [d]. *)
Definition dict_read (d : loc) : M dict :=
  λ h, (default ∅ (h !! d), h).

(** [s.strip(chars)] *)
Fixpoint lstrip_chars (cs : list ascii) (s : string) : string :=
  match s with
  | String a s' => if bool_decide (a ∈ cs) then lstrip_chars cs s' else s
  | EmptyString => EmptyString
  end.

Fixpoint rstrip_chars (cs : list ascii) (s : string) : string :=
  match s with
  | EmptyString => EmptyString
  | String a s' =>
      let r := rstrip_chars cs s' in
      if bool_decide (a ∈ cs) && String.eqb r EmptyString then EmptyString else String a r
  end.

Definition strip_chars (cs : list ascii) (s : string) : string :=
  rstrip_chars cs (lstrip_chars cs s).

Module ParallelExecutor.

Definition DEFAULT_TIMEOUT : Z := 60.
Definition SEARCH_TIMEOUT : Z := 30.
Definition FILE_TIMEOUT : Z := 10.

Record Executor := mkExecutor {
  max_workers : nat;
  default_timeout : Z;
}.

(** The global instance. *)
Definition parallel_executor : Executor := mkExecutor 10 DEFAULT_TIMEOUT.

(** Seconds. *)
Definition _get_timeout {P} (self : Executor) (task : Task P) : Z :=
  if String.eqb (intent_value (intent task)) "search" then SEARCH_TIMEOUT
  else if bool_decide (intent_value (intent task) ∈ ["file_op"; "data_analysis"])
  then FILE_TIMEOUT
  else default_timeout self.

Section executor.
Context `{FileSys} `{PyRuntime}.

Definition quotes : list ascii := ["039"%char; "034"%char].

(** The [image_path] block of [_resolve_params]; [resolved] is the local
    variable [params], the copy. *)
Definition resolve_image_path (resolved : loc) : M unit :=
  v ← dict_get resolved "image_path";
  match v with
  | Some (VStr image_path) =>
      let image_path := strip_chars quotes image_path in
      let path := path_of image_path in
      let path := if negb (path_exists path) then path_resolve path else path in
      dict_set resolved "image_path" (VStr path)
  | _ => mret tt
  end.

(** The [file_path] block; its two branches differ in what they print. *)
Definition resolve_file_path (resolved : loc) : M unit :=
  v ← dict_get resolved "file_path";
  match v with
  | Some (VStr file_path) =>
      let file_path := strip_chars quotes file_path in
      let path := path_of file_path in
      if path_is_absolute path then
        let path := if negb (path_exists path) then path_resolve path else path in
        dict_set resolved "file_path" (VStr path)
      else
        let path := if negb (path_exists path) then path_resolve path else path in
        dict_set resolved "file_path" (VStr path)
  | _ => mret tt
  end.

(** The body of the loop over the dependencies, for one [dep_id]. *)
Definition inject_one (task : Task loc) (previous_results : odict ToolResult)
    (resolved : loc) (dep_id : string) : M unit :=
  match od_get dep_id previous_results with
  | Some result =>
      if success result then
        if String.eqb (intent_value (intent task)) "data_analysis" then
          dict_set resolved "data" (output result)
        else if String.eqb (intent_value (intent task)) "file_op" then
          operation ← dict_get (params task) "operation";
          if bool_decide (operation = Some (VStr "write"))
          then dict_set resolved "content" (output result)
          else mret tt
        else mret tt
      else mret tt
  | None => mret tt
  end.

Fixpoint inject_deps (task : Task loc) (previous_results : odict ToolResult)
    (resolved : loc) (deps : list string) : M unit :=
  match deps with
  | [] => mret tt
  | dep_id :: rest =>
      _ ← inject_one task previous_results resolved dep_id;
      inject_deps task previous_results resolved rest
  end.

(** Returns the reference of the resolved dictionary. *)
Definition _resolve_params (task : Task loc) (previous_results : odict ToolResult) : M loc :=
  resolved ← dict_copy (params task);
  _ ← resolve_image_path resolved;
  _ ← resolve_file_path resolved;
  _ ← inject_deps task previous_results resolved (set_iter (dependencies task));
  mret resolved.

(** The clock readings of [_execute_task] are modelled by the duration of
    the tool call. *)
Definition _execute_task (registry : gmap string tool_fn) (task : Task loc)
    (previous_results : odict ToolResult) : M ToolResult :=
  match registry !! tool task with
  | None =>
      mret (mkResult (id task) (tool task) false VNone
                     (Some ("工具 " +:+ tool task +:+ " 未找到")) 0)
  | Some tool_func =>
      resolved ← _resolve_params task previous_results;
      kwargs ← dict_read resolved;
      let run := tool_func kwargs in
      match ended run with
      | Returns out => mret (mkResult (id task) (tool task) true out None (run_ms run))
      | Raises e =>
          mret (mkResult (id task) (tool task) false VNone (Some (exc_str e)) (run_ms run))
      end
  end.

(** *** Futures *)

(** What [future.result(timeout)] raises. *)
Inductive raised :=
  | TimeoutError
  | Exception (e : exc).

(** [future.result(timeout=timeout)] on a future that completes [wait_ms]
    after the call, with what its callable returned or raised. A future
    that is done already ([wait_ms] is 0) gives its result whatever the
    timeout is. *)
Definition future_result (wait_ms timeout : Z) (stored : ToolResult + exc)
    : ToolResult + raised :=
  if (0 <? wait_ms) && (timeout * 1000 <? wait_ms) then inr TimeoutError
  else match stored with
       | inl result => inl result
       | inr e => inr (Exception e)
       end.

(** [executor.submit(self._execute_task, task, previous_results)] for each
    task: the callable returns a [ToolResult], it catches every exception
    itself. The workers only allocate dictionaries of their own, so they
    are run here one after the other. *)
Fixpoint submit_all (registry : gmap string tool_fn) (ts : list (Task loc))
    (previous_results : odict ToolResult) : M (list (Task loc * (ToolResult + exc))) :=
  match ts with
  | [] => mret []
  | task :: rest =>
      result ← _execute_task registry task previous_results;
      futures ← submit_all registry rest previous_results;
      mret ((task, inl result) :: futures)
  end.

(** The body of the loop over [as_completed(future_to_task)]: a future it
    yields is done, [result] does not wait. *)
Definition collect (self : Executor) (results : odict ToolResult)
    (future : Task loc * (ToolResult + exc)) : odict ToolResult :=
  let '(task, stored) := future in
  let timeout := _get_timeout self task in
  match future_result 0 timeout stored with
  | inl result => od_set (id task) result results
  | inr TimeoutError =>
      od_set (id task)
             (mkResult (id task) (tool task) false VNone
                       (Some ("任务超时 (" +:+ pretty (_get_timeout self task) +:+ "秒)"))
                       (_get_timeout self task * 1000))
             results
  | inr (Exception e) =>
      od_set (id task)
             (mkResult (id task) (tool task) false VNone
                       (Some (exc_type e +:+ ": " +:+ exc_str e)) 0)
             results
  end.

Definition _execute_batch (self : Executor) (registry : gmap string tool_fn)
    (ts : list (Task loc)) (previous_results : odict ToolResult) : M (odict ToolResult) :=
  futures ← submit_all registry ts previous_results;
  mret (foldl (collect self) [] (as_completed futures)).

(** The loop of [execute] over the batches. *)
Fixpoint execute_batches (self : Executor) (registry : gmap string tool_fn)
    (ts : list (Task loc)) (batches : list (list string)) (results : odict ToolResult)
    : M (odict ToolResult) :=
  match batches with
  | [] => mret results
  | batch :: rest =>
      batch_results ←
        _execute_batch self registry (filter (λ t, id t ∈ batch) ts) results;
      execute_batches self registry ts rest (od_update results batch_results)
  end.

Definition execute (self : Executor) (registry : gmap string tool_fn)
    (plan : ExecutionPlan loc) : M (odict ToolResult) :=
  execute_batches self registry (tasks plan) (parallel_batches plan) [].

End executor.

End ParallelExecutor.

(** ** The fallback formatter ([ResultPolisher._fallback_format]) *)

Module ResultPolisher.

(** [len(output) < 500 and '\n' not in output[:100]] *)
Definition short_single_line (output : string) : bool :=
  (py_len output <? 500)%nat && negb (str_in nl (py_take 100 output)).

(** ['\n'.join(lines)] *)
Fixpoint join_lines (lines : list string) : string :=
  match lines with
  | [] => EmptyString
  | [x] => x
  | x :: rest => x +:+ nl +:+ join_lines rest
  end.

(** The two lines the loop appends for the [i]-th successful result. *)
Definition step_lines (i : nat) (result : ToolResult) : list string :=
  let output := py_str (output result) in
  let output :=
    if (500 <? py_len output)%nat then py_take 500 output +:+ "...(已截断)" else output in
  ["**步骤 " +:+ pretty i +:+ " (" +:+ r_tool result +:+ ")**:"; output +:+ nl].

Fixpoint steps_from (i : nat) (rs : list ToolResult) : list string :=
  match rs with
  | [] => []
  | result :: rest => step_lines i result ++ steps_from (S i) rest
  end.

Definition _fallback_format (user_query : string) (results : odict ToolResult) : string :=
  let success_results := List.filter success (od_values results) in
  match success_results with
  | [] =>
      "❌ 任务执行失败" +:+ nl +:+ nl +:+ "问题: " +:+ user_query +:+ nl +:+ nl +:+
      "请检查工具配置或重试。"
  | [result] =>
      let output := py_str (output result) in
      if short_single_line output then output
      else "**" +:+ r_tool result +:+ " 执行结果**:" +:+ nl +:+ nl +:+ output
  | _ =>
      join_lines (("**问题**: " +:+ user_query +:+ nl) :: steps_from 1 success_results)
  end.

End ResultPolisher.

(** ** Sample environments *)

(** A file system in which every path exists. *)
Definition all_exist_fs : FileSys :=
  {| path_of := λ s, s;
     path_exists := λ _, true;
     path_resolve := λ s, if String.prefix "/" s then s else "/srv/" +:+ s;
     path_is_absolute := String.prefix "/" |}.

(** Two runtimes: one iterates a set in the order of [elements] and
    completes futures in submission order, the other does both in the
    reverse order. *)
Program Definition forward_runtime : PyRuntime :=
  {| set_iter := elements; as_completed := λ A l, l |}.
Next Obligation. done. Qed.
Next Obligation. done. Qed.

Program Definition backward_runtime : PyRuntime :=
  {| set_iter := λ s, reverse (elements s); as_completed := λ A l, reverse l |}.
Next Obligation. intros. apply reverse_Permutation. Qed.
Next Obligation. intros. apply reverse_Permutation. Qed.




(** ** The tool registry ([tools/registry.py]) *)

Module ToolRegistry.

(** An entry of [self._tools]. *)
Record entry := mkEntry {
  function : tool_fn;
  description : string;
  requires_auth : bool;
}.

(** The registry is its dictionary [_tools], which keeps insertion order. *)
Abbreviation t := (odict entry).

Definition empty : t := [].

(** [self._tools[name] = {...}] *)
Definition register (self : t) (name : string) (func : tool_fn) (descr : string)
    (auth : bool) : t :=
  od_set name (mkEntry func descr auth) self.

(** An entry is a non-empty dictionary, so [if tool:] holds whenever the
    name is there. *)
Definition get (self : t) (name : string) : option tool_fn :=
  match od_get name self with
  | Some tool => Some (function tool)
  | None => None
  end.

Definition get_tool (self : t) (name : string) : option tool_fn := get self name.

(** [list(self._tools.keys())] *)
Definition list_available (self : t) : list string := fst <$> self.

Definition list_tools (self : t) : list string := list_available self.

(** The name, description and [requires_auth] of every entry. *)
Definition get_descriptions (self : t) : list (string * string * bool) :=
  (λ '(name, meta), (name, description meta, requires_auth meta)) <$> self.

End ToolRegistry.

(** ** The transcript and the generator call ([result_polisher.py]) *)

(** A chat message handed to the generator. *)
Inductive message :=
  | SystemMessage (content : string)
  | HumanMessage (content : string)
  | AIMessage (content : string).

(** A history message as the loop of [polish] sees it: an object with a
    [type] attribute and maybe a [content], or an object without [type],
    which may have a [content] and may be a [HumanMessage] or an
    [AIMessage]. *)
Inductive history_message :=
  | WithType (type : string) (content : option string)
  | WithoutType (has_content : bool) (instance : option message).

(** The generator: [llm.invoke(messages).content], or an exception. *)
Definition generator : Type := list message → string + exc.

Module PolishCall.

(** [output] cut to [n] code points, with the mark the source appends. *)
Definition capped (n : nat) (output : string) : string :=
  if (n <? py_len output)%nat then py_take n output +:+ "...(已截断)" else output.

(** The two lines [_build_context] appends for a task that has a result. *)
Definition result_lines {P} (task : Task P) (result : ToolResult) : list string :=
  [ nl +:+ id task +:+ " (" +:+ tool task +:+ "):";
    if success result
    then "```" +:+ nl +:+ capped 1000 (py_str (output result)) +:+ nl +:+ "```"
    else "❌ 错误: " +:+ default "None" (error result) ].

Definition _build_context {P} (user_query : string) (plan : ExecutionPlan P)
    (results : odict ToolResult) : string :=
  ResultPolisher.join_lines
    ([ "**用户问题**: " +:+ user_query; EmptyString; "**工具执行结果**:" ] ++
     flat_map (λ task, match od_get (id task) results with
                       | Some result => result_lines task result
                       | None => []
                       end)
              (tasks plan)).

(** [l[-n:]] for [n > 0] *)
Definition last_n {A} (n : nat) (l : list A) : list A := drop (length l - n) l.

(** The body of the loop over [recent_history]: the message appended, if
    any; [inr] when reading [msg.content] raises. *)
Definition history_entry (msg : history_message) : option message + exc :=
  match msg with
  | WithType type content =>
      if String.eqb type "human" then
        match content with
        | Some c => inl (Some (HumanMessage c))
        | None => inr (mkExc "AttributeError" "content")
        end
      else if String.eqb type "ai" then
        match content with
        | Some c => inl (Some (AIMessage c))
        | None => inr (mkExc "AttributeError" "content")
        end
      else inl None
  | WithoutType has_content instance =>
      if has_content then
        match instance with
        | Some (HumanMessage c) => inl (Some (HumanMessage c))
        | Some (AIMessage c) => inl (Some (AIMessage c))
        | _ => inl None
        end
      else inl None
  end.

Fixpoint history_entries (msgs : list history_message) : list message + exc :=
  match msgs with
  | [] => inl []
  | msg :: rest =>
      match history_entry msg with
      | inr e => inr e
      | inl m =>
          match history_entries rest with
          | inr e => inr e
          | inl ms => inl (match m with Some x => x :: ms | None => ms end)
          end
      end
  end.

(** The messages [polish] builds; [system_prompt] is
    [POLISH_SYSTEM_PROMPT]. *)
Definition llm_messages (system_prompt context : string)
    (history_messages : list history_message) : list message + exc :=
  match history_entries (last_n 10 history_messages) with
  | inr e => inr e
  | inl ms => inl (SystemMessage system_prompt :: ms ++ [HumanMessage context])
  end.

(** [polish]; [llm] is [self.llm], [None] when no key is configured. *)
Definition polish {P} (llm : option generator) (system_prompt : string)
    (user_query : string) (plan : ExecutionPlan P) (results : odict ToolResult)
    (history_messages : list history_message) : string :=
  let context := _build_context user_query plan results in
  match llm with
  | None => ResultPolisher._fallback_format user_query results
  | Some invoke =>
      match llm_messages system_prompt context history_messages with
      | inr _ => ResultPolisher._fallback_format user_query results
      | inl messages =>
          match invoke messages with
          | inl answer => answer
          | inr _ => ResultPolisher._fallback_format user_query results
          end
      end
  end.

End PolishCall.
(** * Specification predicates *)

(** Task [tid] is in the batch of index [i]. *)
Definition in_batch (batches : list (list string)) (i : nat) (tid : string) : Prop :=
  ∃ b, batches !! i = Some b ∧ tid ∈ b.

(** The list a round sorts: the ready ids, or every remaining id when
    none is ready. *)
Definition round_ready `{PyRuntime} {P} (td : gmap string (Task P)) (rem : gset string)
    : list string :=
  let ready := List.filter (FastPlanner.is_ready td (dom td ∖ rem)) (set_iter rem) in
  match ready with
  | [] => set_iter rem
  | _ => ready
  end.

(** The dependencies stay among the tasks and go down along [rank]. *)
Definition ranked {P} (td : gmap string (Task P)) (rank : string → nat) : Prop :=
  ∀ tid t d, td !! tid = Some t → d ∈ dependencies t →
    d ∈ dom td ∧ (rank d < rank tid)%nat.

(** Every dependency of a task sits in a batch of strictly smaller index
    than the task's own. *)
Definition topological {P} (ts : list (Task P)) (batches : list (list string)) : Prop :=
  ∀ t d, t ∈ ts → d ∈ dependencies t →
    ∃ i j, in_batch batches i (id t) ∧ in_batch batches j d ∧ (j < i)%nat.

(** The batches hold the ids of the tasks and nothing else, every id in
    one batch only and once in it. *)
Definition exact_cover {P} (ts : list (Task P)) (batches : list (list string)) : Prop :=
  (∀ tid, (∃ i, in_batch batches i tid) ↔ tid ∈ (id <$> ts)) ∧
  (∀ tid i j, in_batch batches i tid → in_batch batches j tid → i = j) ∧
  Forall NoDup batches.

(** The ids of the FILE_OP tasks of a list. *)
Definition file_op_ids {P} (ts : list (Task P)) : gset string :=
  list_to_set (id <$> filter (λ o, intent o = FILE_OP) ts).

(** The shape of the dependencies after inference. *)
Definition file_deps_only {P} (ts : list (Task P)) : Prop :=
  Forall (λ t, dependencies t =
               if bool_decide (intent t = DATA_ANALYSIS) then file_op_ids ts else ∅) ts.

(** A rank for the graphs the planner builds. *)
Definition analysis_rank {P} (td : gmap string (Task P)) (tid : string) : nat :=
  match td !! tid with
  | Some t => if bool_decide (intent t = DATA_ANALYSIS) then 1 else 0
  | None => 0
  end.

(** No pattern of [intent_patterns] is found in the lowered query. *)
Definition no_intent_pattern `{TextLib} (query : string) : bool :=
  forallb (λ '(_, patterns),
             forallb (λ pattern, bool_decide (re_search pattern (str_lower query) = None))
                     patterns)
          FastPlanner.intent_patterns.

(** The query holds a continuation keyword and the last of the recent turns
    is an object without [get]. *)
Definition last_turn_unreadable `{TextLib} (query : string) (context : Context) : Prop :=
  FastPlanner.any_in FastPlanner.continuation_keywords (str_lower query) = true ∧
  ∃ shown, last (recent_turns context) = Some (TurnObject shown).

(** Every dictionary object of [h0] is in [h], with the entries it had. *)
Definition preserves (h0 h : heap) : Prop :=
  ∀ l, is_Some (h0 !! l) → h !! l = h0 !! l.

(** The entry of key [k] of the dictionary object [l]. *)
Definition entry (h : heap) (l : loc) (k : string) : option pyval :=
  h !! l ≫= (.!! k).

(** The key under which [_resolve_params] puts the output of a dependency,
    by the intent of the task and its declared [operation]. *)
Definition inject_key (i : Intent) (operation : option pyval) : option string :=
  match i with
  | DATA_ANALYSIS => Some "data"
  | FILE_OP => if bool_decide (operation = Some (VStr "write")) then Some "content" else None
  | _ => None
  end.

(** The dependency [dep] has a successful result in [prev]. *)
Definition succeeded (prev : odict ToolResult) (dep : string) : option pyval :=
  match od_get dep prev with
  | Some result => if success result then Some (output result) else None
  | None => None
  end.

(** ** Three statements of the specification, as it words them *)

(** The end-to-end scenario: for the request the planner detects
    CALCULATE and emits one [code_execution] task whose code, once run,
    prints 385. *)
Definition square_sum_request : string := "计算 1 到 10 的平方和".
Definition no_context : Context := mkContext [] [] [].

Definition square_sum_scenario `{TextLib} `{PyRuntime} : Prop :=
  ∃ r t code out,
    FastPlanner.plan 0 0 square_sum_request no_context = Some r ∧
    (∃ intents, FastPlanner._classify_intent square_sum_request no_context = Some intents ∧
                CALCULATE ∈ intents) ∧
    tasks (FastPlanner.returned r) = [t] ∧
    tool t = "code_execution" ∧
    params t !! "code" = Some (VStr code) ∧
    CodeTool.run code = Some out ∧
    str_in "385" out = true.

(** The task the planner emits for that request. *)
Definition range_sum_task : Task dict :=
  mkTask "task_0" CALCULATE "code_execution"
         (FastPlanner.code_dict (FastPlanner.range_sum_code "1" "10")) ∅ 3 1500.

(** Dependency injection: the output of every dependency that succeeded
    is in the resolved parameters, under the key of the task's intent. *)
Definition injects_each_dependency `{FileSys} `{PyRuntime}
    (task : Task loc) (prev : odict ToolResult) (h : heap) : Prop :=
  ∀ dep out, dep ∈ dependencies task → succeeded prev dep = Some out →
    let resolved := ParallelExecutor._resolve_params task prev h in
    match intent task with
    | DATA_ANALYSIS => entry resolved.2 resolved.1 "data" = Some out
    | FILE_OP =>
        if bool_decide (entry h (params task) "operation" = Some (VStr "write"))
        then entry resolved.2 resolved.1 "content" = Some out
        else True
    | _ => True
    end.

(** The fallback: never empty, names the query when nothing succeeded,
    and is the output itself when one short single-line output succeeded. *)
Definition fallback_never_empty (user_query : string) (results : odict ToolResult) : Prop :=
  let answer := ResultPolisher._fallback_format user_query results in
  answer ≠ EmptyString ∧
  match List.filter success (od_values results) with
  | [] => str_in user_query answer = true
  | [result] =>
      if ResultPolisher.short_single_line (py_str (output result))
      then answer = py_str (output result) else True
  | _ => True
  end.

(** ** Sample inputs *)

Definition ok_result (tid tool_name : string) (out : pyval) (ms : Z) : ToolResult :=
  mkResult tid tool_name true out None ms.

(** Two uploaded images and a request to analyse them: the analysis task
    depends on both vision tasks. *)
Definition two_image_analysis : Task loc :=
  mkTask "task_2" DATA_ANALYSIS "data_analysis" 3%positive {["task_0"; "task_1"]} 5 2000.

Definition two_image_results : odict ToolResult :=
  [("task_0", ok_result "task_0" "vision_analysis" (VStr "a cat") 900);
   ("task_1", ok_result "task_1" "vision_analysis" (VStr "a dog") 950)].

Definition two_image_heap : heap :=
  {[ 1%positive := {[ "image_path" := VStr "cat.png"; "question" := VNone ]};
     2%positive := {[ "image_path" := VStr "dog.png"; "question" := VNone ]};
     3%positive := {[ "code" := VStr "print(df.head())" ]} ]}.

(** A write that depends on a task whose output is [hello]. *)
Definition write_after_a : Task loc :=
  mkTask "B" FILE_OP "file_operations" 1%positive {["A"]} 10 100.

Definition write_heap : heap :=
  {[ 1%positive := {[ "operation" := VStr "write"; "file_path" := VStr "out.txt" ]} ]}.

Definition hello_results : odict ToolResult :=
  [("A", ok_result "A" "code_execution" (VStr "hello") 40)].

(** A search whose tool answers after 31 seconds. *)
Definition slow_search : Task loc :=
  mkTask "task_0" SEARCH "intelligent_search" 1%positive ∅ 8 2000.

Definition slow_search_plan : ExecutionPlan loc :=
  mkPlan [slow_search] [["task_0"]] 2000 true.

Definition slow_search_heap : heap :=
  {[ 1%positive := {[ "query" := VStr "quantum computing"; "max_results" := VInt 5 ]} ]}.

Definition slow_registry : gmap string tool_fn :=
  {[ "intelligent_search" := λ _, mkRun 31000 (Returns (VStr "late")) ]}.

(** A tool that raises [ValueError("bad input")]. *)
Definition raising_registry : gmap string tool_fn :=
  {[ "intelligent_search" := λ _, mkRun 3 (Raises (mkExc "ValueError" "bad input")) ]}.

(** The write-then-read pipeline of [tests/test_comprehensive.py]. *)
Definition pipeline_plan : ExecutionPlan loc :=
  mkPlan [ mkTask "write" FILE_OP "file_operations" 1%positive ∅ 10 50;
           mkTask "read" FILE_OP "file_operations" 2%positive {["write"]} 9 50 ]
         [["write"]; ["read"]] 100 false.

Definition pipeline_heap : heap :=
  {[ 1%positive := {[ "operation" := VStr "write"; "file_path" := VStr "data/t.txt";
                      "content" := VStr "hello" ]};
     2%positive := {[ "operation" := VStr "read"; "file_path" := VStr "data/t.txt" ]} ]}.

Definition file_registry : gmap string tool_fn :=
  {[ "file_operations" := λ kwargs,
       mkRun 4 (Returns (default (VStr "hello") (kwargs !! "content"))) ]}.

(** One successful result whose output is the empty string, as the read
    of an empty text file gives. *)
Definition silent_results : odict ToolResult :=
  [("task_0", ok_result "task_0" "file_operations" (VStr EmptyString) 4)].

(** The request and context of [test_generates_complex_plan]. *)
Definition csv_request : string := "读取 dataset.csv 并分析销量趋势".
Definition csv_context : Context := mkContext ["data/uploads/dataset.csv"] [] [].

(** A context as [fast_agent_invoke] builds it after one exchange: no
    upload, and the chat messages of the exchange as recent turns. *)
Definition message_history_context : Context :=
  mkContext [] [TurnObject "content='你好' type='human'";
                TurnObject "content='你好，有什么可以帮你？' type='ai'"] [].

(** A request with two intents of equal priority, SEARCH and WEB_SCRAPE. *)
Definition search_and_scrape_request : string := "搜索并抓取网页".

(** ** Tactics *)

(** Unfolds the heap monad. *)
Ltac munfold := unfold mbind, M_bind, mret, M_ret in *; simpl in *.

(** ** Further predicates *)

(** The priority the scheduler reads for an id, [task_dict[tid].priority]. *)
Definition priority_of {P} (ts : list (Task P)) (tid : string) : Z :=
  match task_dict_of ts !! tid with
  | Some t => priority t
  | None => 0
  end.

(** A list of ids in non-increasing priority. *)
Definition by_priority {P} (ts : list (Task P)) (batch : list string) : Prop :=
  StronglySorted (λ a b, priority_of ts b <= priority_of ts a) batch.

(** Two tasks that wait for each other. *)
Definition deadlocked_pair : list (Task dict) :=
  [ mkTask "a" SEARCH "intelligent_search" ∅ {["b"]} 8 2000;
    mkTask "b" CALCULATE "code_execution" ∅ {["a"]} 3 1500 ].

(** A chain of three tasks given out of order. *)
Definition chain_of_three : list (Task dict) :=
  [ mkTask "c" DATA_ANALYSIS "data_analysis" ∅ {["b"]} 5 2000;
    mkTask "a" SEARCH "intelligent_search" ∅ ∅ 8 2000;
    mkTask "b" FILE_OP "file_operations" ∅ {["a"]} 10 100 ].

Definition chain_rank (tid : string) : nat :=
  if String.eqb tid "a" then 0 else if String.eqb tid "b" then 1 else 2.

(** What the two path blocks of [_resolve_params] make of a path. *)
Definition normalize_path `{FileSys} (p : string) : string :=
  let path := path_of (strip_chars ParallelExecutor.quotes p) in
  if negb (path_exists path) then path_resolve path else path.

Definition with_path `{FileSys} (key : string) (d : dict) : dict :=
  match d !! key with
  | Some (VStr p) => <[key := VStr (normalize_path p)]> d
  | _ => d
  end.

(** The effect on the copy of one round of the loop over the dependencies. *)
Definition inject_step (task : Task loc) (prev : odict ToolResult)
    (operation : option pyval) (d : dict) (dep : string) : dict :=
  match succeeded prev dep, inject_key (intent task) operation with
  | Some out, Some k => <[k := out]> d
  | _, _ => d
  end.

(** The entries of the resolved dictionary, from the entries [d0] of
    [task.params]. *)
Definition resolved_dict `{FileSys} `{PyRuntime} (task : Task loc)
    (prev : odict ToolResult) (d0 : dict) : dict :=
  foldl (inject_step task prev (d0 !! "operation"))
        (with_path "file_path" (with_path "image_path" d0))
        (set_iter (dependencies task)).

(** [d.keys()] *)
Definition od_keys {V} (d : odict V) : list string := fst <$> d.

(** A task whose dependency failed. *)
Definition after_failed_read : Task loc :=
  mkTask "task_1" DATA_ANALYSIS "data_analysis" 2%positive {["task_0"]} 5 2000.

Definition failed_read_results : odict ToolResult :=
  [("task_0", mkResult "task_0" "file_operations" false VNone (Some "no such file") 3)].

Definition failed_read_heap : heap :=
  {[ 1%positive := {[ "operation" := VStr "read"; "file_path" := VStr "sales.csv" ]};
     2%positive := {[ "code" := VStr "print(df.describe())" ]} ]}.

(** Three tasks of one batch; the second tool raises, the third is not
    registered. *)
Definition mixed_batch : list (Task loc) :=
  [ mkTask "task_0" SEARCH "intelligent_search" 1%positive ∅ 8 2000;
    mkTask "task_1" CALCULATE "code_execution" 2%positive ∅ 3 1500;
    mkTask "task_2" WEB_SCRAPE "file_scraper" 3%positive ∅ 8 3000 ].

Definition mixed_heap : heap :=
  {[ 1%positive := {[ "query" := VStr "rocq"; "max_results" := VInt 5 ]};
     2%positive := {[ "code" := VStr "1/0" ]};
     3%positive := ∅ ]}.

Definition mixed_registry : gmap string tool_fn :=
  {[ "intelligent_search" := λ _, mkRun 120 (Returns (VStr "found"));
     "code_execution" := λ _, mkRun 15 (Raises (mkExc "ZeroDivisionError" "division by zero")) ]}.

(** A result map entry is well formed: filed under its task id; a success
    has no error, a failure has an error and no output. *)
Definition well_formed_result (entry : string * ToolResult) : Prop :=
  task_id entry.2 = entry.1 ∧
  if success entry.2 then error entry.2 = None
  else output entry.2 = VNone ∧ is_Some (error entry.2).

(** The sum of the estimates of a list of tasks. *)
Definition sequential_ms {P} (ts : list (Task P)) : Z :=
  foldr Z.add 0 (estimated_time_ms <$> ts).

(** A message of the conversation proper, not a system prompt. *)
Definition is_turn (m : message) : bool :=
  match m with
  | SystemMessage _ => false
  | _ => true
  end.

(** The estimate the planner reads for an id, 0 for an unknown id. *)
Definition est_of {P} (td : gmap string (Task P)) (tid : string) : Z :=
  default 0 (estimated_time_ms <$> td !! tid).


(** * Properties *)

#[local] Set Warnings "-clear-no-such-hyp".

(** ** Lists, text, sorting *)

Lemma prefix_append (a b : string) : String.prefix a (a +:+ b) = true.
Proof.
  induction a as [|c a IH]; simpl.
  - by destruct b.
  - destruct (Ascii.ascii_dec c c); [apply IH | done].
Qed.

Lemma str_in_prefix (a s : string) : String.prefix a s = true → str_in a s = true.
Proof. intros Hp. destruct s; unfold str_in; fold str_in; rewrite Hp; done. Qed.

Lemma str_in_middle (a q b : string) : str_in q (a +:+ q +:+ b) = true.
Proof.
  induction a as [|c a IH].
  - apply str_in_prefix, (prefix_append q b).
  - change (str_in q (String c (a +:+ q +:+ b)) = true).
    unfold str_in; fold str_in. rewrite IH. apply orb_true_r.
Qed.

Lemma append_inj_l (a b c : string) : a +:+ b = a +:+ c → b = c.
Proof. induction a; simpl; intros Heq; [done | injection Heq; auto]. Qed.

Lemma task_name_inj : Inj (=) (=) FastPlanner.task_name.
Proof.
  intros m n Heq. unfold FastPlanner.task_name in Heq.
  apply append_inj_l in Heq. by apply (inj pretty) in Heq.
Qed.

Lemma insert_desc_perm {A} (key : A → Z) x l : insert_desc key x l ≡ₚ x :: l.
Proof.
  induction l as [|y l IH]; simpl; [done |].
  destruct (key y <=? key x); [done |].
  rewrite IH. apply Permutation_swap.
Qed.

Lemma sort_desc_perm {A} (key : A → Z) l : sort_desc key l ≡ₚ l.
Proof.
  induction l as [|x l IH]; simpl; [done |].
  by rewrite insert_desc_perm, IH.
Qed.

(** ** The task dictionary *)

Section task_dict.
Context {P : Type}.
Implicit Types (ts : list (Task P)) (t : Task P).

Lemma task_dict_of_snoc ts t :
  task_dict_of (ts ++ [t]) = <[id t := t]> (task_dict_of ts).
Proof. unfold task_dict_of. by rewrite foldl_snoc. Qed.

Lemma task_dict_of_dom ts : dom (task_dict_of ts) = list_to_set (id <$> ts).
Proof.
  induction ts as [|t ts IH] using rev_ind; [set_solver |].
  rewrite task_dict_of_snoc, dom_insert_L, IH, fmap_app, list_to_set_app_L.
  set_solver.
Qed.

Lemma task_dict_of_lookup ts t :
  NoDup (id <$> ts) → t ∈ ts → task_dict_of ts !! id t = Some t.
Proof.
  induction ts as [|t' ts IH] using rev_ind; [by intros _ ?%elem_of_nil |].
  rewrite fmap_app, task_dict_of_snoc. simpl.
  intros [Hnd [Hdisj _]]%NoDup_app [Hin | ->%list_elem_of_singleton]%elem_of_app.
  - rewrite lookup_insert_ne; [by apply IH |].
    intros Heq. apply (Hdisj (id t)); [apply list_elem_of_fmap; eauto | rewrite Heq; set_solver].
  - by rewrite lookup_insert_eq.
Qed.

Lemma task_dict_of_Some ts tid t :
  task_dict_of ts !! tid = Some t → t ∈ ts ∧ id t = tid.
Proof.
  induction ts as [|t' ts IH] using rev_ind; [done |].
  rewrite task_dict_of_snoc. destruct (decide (id t' = tid)) as [<- | Hne].
  - rewrite lookup_insert_eq. intros [= ->]. set_solver.
  - rewrite lookup_insert_ne by done. intros [? ?]%IH. set_solver.
Qed.

Lemma same_id_same_task ts t t' :
  NoDup (id <$> ts) → t ∈ ts → t' ∈ ts → id t = id t' → t = t'.
Proof.
  intros Hnd Ht Ht' Heq.
  pose proof (task_dict_of_lookup ts t Hnd Ht) as H1.
  pose proof (task_dict_of_lookup ts t' Hnd Ht') as H2.
  rewrite Heq in H1. congruence.
Qed.

End task_dict.

(** ** Decomposition: ids and initial dependencies *)

Section decompose.
Context `{TextLib}.
Import FastPlanner.

Lemma vision_tasks_ids q k imgs :
  id <$> vision_tasks q k imgs = task_name <$> seq k (length imgs).
Proof. revert k. induction imgs as [|img imgs IH]; intros k; simpl; [done | by rewrite IH]. Qed.

Lemma vision_tasks_length q k imgs : length (vision_tasks q k imgs) = length imgs.
Proof. revert k. induction imgs as [|img imgs IH]; intros k; simpl; [done | by rewrite IH]. Qed.

Lemma intent_tasks_ids q ctx hi k intents :
  id <$> intent_tasks q ctx hi k intents
  = task_name <$> seq k (length (intent_tasks q ctx hi k intents)).
Proof.
  revert k. induction intents as [|i intents IH]; intros k; simpl; [done |].
  repeat case_match; simpl; rewrite <- ?IH; done.
Qed.

Lemma decompose_ids q intents ctx :
  id <$> _decompose_tasks q intents ctx
  = task_name <$> seq 0 (length (_decompose_tasks q intents ctx)).
Proof.
  unfold _decompose_tasks.
  rewrite fmap_app, length_app, seq_app, fmap_app, vision_tasks_length.
  by rewrite vision_tasks_ids, intent_tasks_ids.
Qed.

Lemma decompose_NoDup q intents ctx : NoDup (id <$> _decompose_tasks q intents ctx).
Proof.
  rewrite decompose_ids. apply NoDup_fmap_2; [apply task_name_inj | apply NoDup_seq].
Qed.

Lemma vision_tasks_fresh q k imgs :
  Forall (λ t, dependencies t = ∅ ∧ intent t = FILE_OP) (vision_tasks q k imgs).
Proof. revert k. induction imgs; intros k; simpl; constructor; auto. Qed.

Lemma intent_tasks_fresh q ctx hi k intents :
  Forall (λ t : Task dict, dependencies t = ∅) (intent_tasks q ctx hi k intents).
Proof.
  revert k. induction intents as [|i intents IH]; intros k; simpl; [constructor |].
  repeat case_match; try apply IH. constructor; [done | apply IH].
Qed.

Lemma decompose_fresh q intents ctx :
  Forall (λ t : Task dict, dependencies t = ∅) (_decompose_tasks q intents ctx).
Proof.
  apply Forall_app; split.
  - eapply Forall_impl; [apply vision_tasks_fresh | naive_solver].
  - apply intent_tasks_fresh.
Qed.

End decompose.

(** ** Dependency inference *)

Section analyze.
Context {P : Type}.
Implicit Types (ts : list (Task P)) (t : Task P).
Import FastPlanner.

Lemma elem_of_add_file_deps ts t d :
  d ∈ add_file_deps ts t ↔
  d ∈ dependencies t ∨ ∃ o, o ∈ ts ∧ intent o = FILE_OP ∧ id o ≠ id t ∧ d = id o.
Proof.
  unfold add_file_deps. generalize (dependencies t) as deps.
  induction ts as [|o ts IH] using rev_ind; intros deps; simpl.
  - split; [auto | intros [? | (? & []%elem_of_nil & _)]; done].
  - rewrite foldl_snoc.
    destruct (bool_decide (intent o = FILE_OP) && negb (String.eqb (id o) (id t))) eqn:E.
    + apply andb_true_iff in E as [Hi%bool_decide_eq_true Hn%negb_true_iff%String.eqb_neq].
      rewrite elem_of_union, IH, elem_of_singleton. split.
      * intros [[? | (o' & ? & ?)] | ->]; [auto | right; exists o'; set_solver | right; exists o; set_solver].
      * intros [? | (o' & [? | ->%list_elem_of_singleton]%elem_of_app & ? & ? & ->)]; eauto 10.
    + rewrite IH. split.
      * intros [? | (o' & ? & ?)]; [auto | right; exists o'; set_solver].
      * intros [? | (o' & [? | ->%list_elem_of_singleton]%elem_of_app & Hi & Hn & ->)]; eauto 10.
        apply andb_false_iff in E as [E%bool_decide_eq_false | E%negb_false_iff%String.eqb_eq]; done.
Qed.

Lemma analyze_ids ts : id <$> _analyze_dependencies ts = id <$> ts.
Proof.
  unfold _analyze_dependencies. rewrite <- list_fmap_compose.
  apply list_fmap_ext. intros ? t _. simpl. by case_bool_decide.
Qed.

Lemma analyze_intents ts : intent <$> _analyze_dependencies ts = intent <$> ts.
Proof.
  unfold _analyze_dependencies. rewrite <- list_fmap_compose.
  apply list_fmap_ext. intros ? t _. simpl. by case_bool_decide.
Qed.

Lemma analyze_length ts : length (_analyze_dependencies ts) = length ts.
Proof. apply length_map. Qed.


Lemma file_op_ids_redep (g : Task P → gset string) ts :
  file_op_ids (map (λ task, if bool_decide (intent task = DATA_ANALYSIS)
                            then with_dependencies (g task) task else task) ts)
  = file_op_ids ts.
Proof.
  unfold file_op_ids. f_equal.
  induction ts as [|t ts IH]; [done |].
  rewrite map_cons, !filter_cons.
  case_bool_decide as Hda; simpl.
  - rewrite Hda, !decide_False by done. apply IH.
  - case_decide; [rewrite !fmap_cons; f_equal |]; apply IH.
Qed.

Lemma file_op_ids_analyze ts : file_op_ids (_analyze_dependencies ts) = file_op_ids ts.
Proof. apply file_op_ids_redep. Qed.

Lemma add_file_deps_fresh ts t :
  NoDup (id <$> ts) → t ∈ ts → dependencies t = ∅ → intent t ≠ FILE_OP →
  add_file_deps ts t = file_op_ids ts.
Proof.
  intros Hnd Ht Hd Hi. apply set_eq. intros d.
  rewrite elem_of_add_file_deps, Hd. unfold file_op_ids.
  rewrite elem_of_list_to_set, list_elem_of_fmap. split.
  - intros [[]%not_elem_of_empty | (o & Ho & Hio & _ & ->)].
    exists o. split; [done |]. by apply list_elem_of_filter.
  - intros (o & -> & [Hio Ho]%list_elem_of_filter). right. exists o.
    repeat split; try done. intros Heq.
    apply (same_id_same_task ts o t Hnd Ho Ht) in Heq. congruence.
Qed.

End analyze.

(** ** Batch scheduling *)

Lemma elem_of_filter_bool {A} (f : A → bool) (l : list A) x :
  x ∈ List.filter f l ↔ f x = true ∧ x ∈ l.
Proof. rewrite !list_elem_of_In, filter_In. tauto. Qed.

Lemma NoDup_filter_bool {A} (f : A → bool) (l : list A) :
  NoDup l → NoDup (List.filter f l).
Proof.
  induction 1 as [|x l Hx Hl IH]; simpl; [constructor |].
  destruct (f x); [constructor |]; try done.
  rewrite elem_of_filter_bool. tauto.
Qed.


Section schedule_facts.
Context `{PyRuntime} {P : Type}.
Implicit Types (td : gmap string (Task P)) (rem : gset string).
Import FastPlanner.

Lemma elem_of_set_iter rem tid : tid ∈ set_iter rem ↔ tid ∈ rem.
Proof. by rewrite (set_iter_perm rem), elem_of_elements. Qed.

Lemma NoDup_set_iter rem : NoDup (set_iter rem).
Proof. rewrite (set_iter_perm rem). apply NoDup_elements. Qed.

Lemma set_iter_nonempty rem : rem ≠ ∅ → set_iter rem ≠ [].
Proof.
  intros Hne Hnil. apply Hne, leibniz_equiv, elements_empty_inv.
  apply Permutation_nil_r. rewrite <- Hnil. symmetry. apply set_iter_perm.
Qed.


Lemma next_batch_perm td rem : next_batch td rem ≡ₚ round_ready td rem.
Proof. unfold next_batch, round_ready. apply sort_desc_perm. Qed.

Lemma round_ready_sub td rem tid : tid ∈ round_ready td rem → tid ∈ rem.
Proof.
  unfold round_ready. destruct (List.filter _ _) eqn:E.
  - apply elem_of_set_iter.
  - rewrite <- E, elem_of_filter_bool, elem_of_set_iter. tauto.
Qed.

Lemma round_ready_NoDup td rem : NoDup (round_ready td rem).
Proof.
  unfold round_ready. destruct (List.filter _ _) eqn:E.
  - apply NoDup_set_iter.
  - rewrite <- E. apply NoDup_filter_bool, NoDup_set_iter.
Qed.

Lemma round_ready_nonempty td rem : rem ≠ ∅ → round_ready td rem ≠ [].
Proof.
  intros Hne. unfold round_ready. destruct (List.filter _ _) eqn:E; [| done].
  by apply set_iter_nonempty.
Qed.

Lemma next_batch_sub td rem tid : tid ∈ next_batch td rem → tid ∈ rem.
Proof. rewrite next_batch_perm. apply round_ready_sub. Qed.

Lemma next_batch_nonempty td rem : rem ≠ ∅ → next_batch td rem ≠ [].
Proof.
  intros Hne Hnil. apply (round_ready_nonempty td rem Hne).
  apply Permutation_nil_r. rewrite <- Hnil. symmetry. apply next_batch_perm.
Qed.

Lemma size_after_batch td rem :
  rem ≠ ∅ → (size (rem ∖ list_to_set (next_batch td rem)) < size rem)%nat.
Proof.
  intros Hne. apply subset_size.
  destruct (next_batch td rem) as [|tid b] eqn:E; [by apply next_batch_nonempty in E |].
  assert (tid ∈ rem) by (apply (next_batch_sub td); rewrite E; set_solver).
  set_solver.
Qed.

(** Every remaining id is put in one batch, once. *)
Lemma schedule_loop_cover fuel td rem :
  (size rem ≤ fuel)%nat → concat (schedule_loop fuel td rem) ≡ₚ elements rem.
Proof.
  revert rem. induction fuel as [|fuel IH]; intros rem Hsz; simpl.
  - apply Nat.le_0_r, size_empty_inv in Hsz. apply leibniz_equiv in Hsz.
    subst. by rewrite elements_empty.
  - case_decide as Hrem; [subst; by rewrite elements_empty |]. simpl.
    pose proof (size_after_batch td rem Hrem).
    rewrite IH by lia.
    apply NoDup_Permutation.
    + apply NoDup_app. split_and!.
      * rewrite next_batch_perm. apply round_ready_NoDup.
      * intros tid Hin [_ Hn]%elem_of_elements%elem_of_difference.
        apply Hn. by apply elem_of_list_to_set.
      * apply NoDup_elements.
    + apply NoDup_elements.
    + intros tid. rewrite elem_of_app, !elem_of_elements, elem_of_difference, elem_of_list_to_set.
      split; [intros [?%next_batch_sub | [? _]]; done |].
      intros ?. destruct (decide (tid ∈ next_batch td rem)); auto.
Qed.

Lemma schedule_loop_nonempty fuel td rem :
  Forall (λ b, b ≠ []) (schedule_loop fuel td rem).
Proof.
  revert rem. induction fuel as [|fuel IH]; intros rem; simpl; [constructor |].
  case_decide; constructor; [by apply next_batch_nonempty | apply IH].
Qed.

(** *** Acyclic graphs: nothing is ever forced *)


Lemma is_ready_true td completed tid t :
  td !! tid = Some t → is_ready td completed tid = true →
  ∀ d, d ∈ dependencies t → d ∈ completed.
Proof.
  unfold is_ready. intros -> [He%bool_decide_eq_true | Hs%bool_decide_eq_true]%orb_true_iff d Hd;
    set_solver.
Qed.

Lemma exists_ready td rank rem n tid :
  ranked td rank → rem ⊆ dom td → tid ∈ rem → (rank tid ≤ n)%nat →
  ∃ tid', tid' ∈ rem ∧ is_ready td (dom td ∖ rem) tid' = true.
Proof.
  intros Hrk Hsub. revert tid. induction n as [|n IH]; intros tid Hin Hle.
  - exists tid. split; [done |].
    assert (is_Some (td !! tid)) as [t Ht] by (apply elem_of_dom; set_solver).
    unfold is_ready. rewrite Ht. apply orb_true_iff. left. apply bool_decide_eq_true.
    apply set_eq. intros d. split; [| by intros ?%not_elem_of_empty].
    intros Hd. destruct (Hrk tid t d Ht Hd). lia.
  - destruct (is_ready td (dom td ∖ rem) tid) eqn:E; [eauto |].
    assert (is_Some (td !! tid)) as [t Ht] by (apply elem_of_dom; set_solver).
    unfold is_ready in E. rewrite Ht in E.
    apply orb_false_iff in E as [_ Hs%bool_decide_eq_false].
    assert (∃ d, d ∈ dependencies t ∧ d ∉ dom td ∖ rem) as (d & Hd & Hnc).
    { apply dec_stable. intros Hno. apply Hs. intros d Hd.
      destruct (decide (d ∈ dom td ∖ rem)); [done |]. exfalso. eauto. }
    destruct (Hrk tid t d Ht Hd) as [Hdom Hlt].
    apply (IH d); [set_solver | lia].
Qed.

Lemma round_ready_ranked td rank rem tid t :
  ranked td rank → rem ⊆ dom td →
  tid ∈ round_ready td rem → td !! tid = Some t →
  ∀ d, d ∈ dependencies t → d ∈ dom td ∖ rem.
Proof.
  intros Hrk Hsub Hin Ht. unfold round_ready in Hin.
  destruct (List.filter _ _) eqn:E.
  - apply elem_of_set_iter in Hin.
    destruct (exists_ready td rank rem (rank tid) tid Hrk Hsub Hin) as (tid' & Hin' & Hr); [done |].
    assert (tid' ∈ List.filter (is_ready td (dom td ∖ rem)) (set_iter rem)) as Hf
      by (apply elem_of_filter_bool; split; [done | by apply elem_of_set_iter]).
    rewrite E in Hf. by apply elem_of_nil in Hf.
  - rewrite <- E in Hin. apply elem_of_filter_bool in Hin as [Hr _].
    by apply (is_ready_true td _ tid t).
Qed.

(** A dependency of a task of batch [i] was completed before the loop
    started or lies in a batch before [i]. *)
Lemma schedule_loop_order fuel td rank rem i tid t d :
  ranked td rank → rem ⊆ dom td →
  in_batch (schedule_loop fuel td rem) i tid → td !! tid = Some t → d ∈ dependencies t →
  d ∈ dom td ∖ rem ∨ ∃ j, (j < i)%nat ∧ in_batch (schedule_loop fuel td rem) j d.
Proof.
  intros Hrk. revert rem i. induction fuel as [|fuel IH]; intros rem i Hsub (b & Hb & Hin) Ht Hd.
  - done.
  - simpl in *. case_decide as Hrem; [done |].
    destruct i as [|i]; simpl in Hb.
    + injection Hb as <-. left.
      apply (round_ready_ranked td rank rem tid t); try done.
      by rewrite <- next_batch_perm.
    + destruct (IH (rem ∖ list_to_set (next_batch td rem)) i) as [Hc | (j & Hj & Hbj)];
        [set_solver | by exists b | done | done | |].
      * destruct (decide (d ∈ rem)) as [Hdr | Hdr]; [| left; set_solver].
        right. exists 0%nat. split; [lia |]. exists (next_batch td rem). split; [done |].
        set_solver.
      * right. exists (S j). split; [lia | done].
Qed.

End schedule_facts.

(** ** Plans *)



Lemma elem_of_concat_in_batch batches tid :
  tid ∈ concat batches ↔ ∃ i, in_batch batches i tid.
Proof.
  unfold in_batch. induction batches as [|b batches IH]; simpl.
  - split; [by intros ?%elem_of_nil | by intros (i & b & ? & _)].
  - rewrite elem_of_app, IH. split.
    + intros [Hin | (i & b' & Hi & Hin)]; [by exists 0%nat, b | by exists (S i), b'].
    + intros ([|i] & b' & Hi & Hin); simpl in Hi; simplify_eq; eauto.
Qed.

Lemma NoDup_concat_one_batch batches tid i j :
  NoDup (concat batches) → in_batch batches i tid → in_batch batches j tid → i = j.
Proof.
  revert i j. induction batches as [|b batches IH]; intros i j Hnd (bi & Hi & Hini) (bj & Hj & Hinj).
  - done.
  - simpl in Hnd. apply NoDup_app in Hnd as (_ & Hdisj & Hnd).
    destruct i as [|i], j as [|j]; simpl in *; simplify_eq; try done.
    + exfalso. apply (Hdisj tid Hini). apply elem_of_concat_in_batch. exists j, bj. done.
    + exfalso. apply (Hdisj tid Hinj). apply elem_of_concat_in_batch. exists i, bi. done.
    + f_equal. apply IH; [done | by exists bi | by exists bj].
Qed.

Lemma NoDup_concat_each {A} (ls : list (list A)) : NoDup (concat ls) → Forall NoDup ls.
Proof.
  induction ls as [|l ls IH]; simpl; [constructor |].
  intros (? & _ & ?)%NoDup_app. constructor; auto.
Qed.

Section plan_facts.
Context `{PyRuntime} {P : Type}.
Implicit Types (ts : list (Task P)).
Import FastPlanner.

Lemma schedule_tasks_cover ts :
  concat (_schedule_tasks ts) ≡ₚ elements (dom (task_dict_of ts)).
Proof.
  unfold _schedule_tasks. destruct ts as [|t ts]; [done |].
  by apply schedule_loop_cover.
Qed.

Lemma schedule_tasks_exact_cover ts :
  NoDup (id <$> ts) → exact_cover ts (_schedule_tasks ts).
Proof.
  intros Hnd. pose proof (schedule_tasks_cover ts) as Hc.
  assert (NoDup (concat (_schedule_tasks ts))) as Hndc
    by (rewrite Hc; apply NoDup_elements).
  split_and!.
  - intros tid. rewrite <- elem_of_concat_in_batch, Hc, elem_of_elements, task_dict_of_dom.
    apply elem_of_list_to_set.
  - intros tid i j. by apply NoDup_concat_one_batch.
  - by apply NoDup_concat_each.
Qed.

(** On an acyclic graph whose edges stay among the tasks, the batches
    follow the dependencies. *)
Lemma schedule_tasks_topological ts rank :
  NoDup (id <$> ts) → ranked (task_dict_of ts) rank → topological ts (_schedule_tasks ts).
Proof.
  intros Hnd Hrk t d Ht Hd.
  destruct (schedule_tasks_exact_cover ts Hnd) as (Hcov & _ & _).
  destruct (proj2 (Hcov (id t))) as [i Hi]; [apply list_elem_of_fmap; eauto |].
  pose proof (task_dict_of_lookup ts t Hnd Ht) as Hlk.
  unfold _schedule_tasks in *. destruct ts as [|t0 ts]; [by apply elem_of_nil in Ht |].
  destruct (schedule_loop_order _ _ rank _ i (id t) t d Hrk (reflexivity _) Hi Hlk Hd)
    as [Hc | (j & Hj & Hbj)]; [set_solver |].
  exists i, j. done.
Qed.

Lemma batch_time_is_Some (td : gmap string (Task P)) b :
  b ≠ [] → (∀ tid, tid ∈ b → tid ∈ dom td) → is_Some (batch_time td b).
Proof.
  intros Hne Hsub. unfold batch_time.
  assert (is_Some (mapM (λ tid, estimated_time_ms <$> td !! tid) b)) as [times Htimes].
  { apply mapM_is_Some, Forall_forall. intros tid Hin.
    apply Hsub, elem_of_dom in Hin as [t Ht]. simpl. rewrite Ht. by eexists. }
  rewrite Htimes. simpl. destruct times as [|x times]; [| by eexists].
  apply length_mapM in Htimes. destruct b; done.
Qed.

Lemma estimate_is_Some batches ts :
  Forall (λ b, b ≠ []) batches →
  (∀ tid, tid ∈ concat batches → tid ∈ dom (task_dict_of ts)) →
  is_Some (_estimate_total_time batches ts).
Proof.
  unfold _estimate_total_time. generalize 0 as z.
  induction batches as [|b batches IH]; intros z Hne Hsub; simpl; [by eexists |].
  apply Forall_cons in Hne as [Hb Hne].
  destruct (batch_time_is_Some (task_dict_of ts) b Hb) as [bt ->]; [set_solver |].
  simpl. apply IH; [done | set_solver].
Qed.

(** Scheduling followed by the estimate never raises. *)
Lemma estimate_schedule_is_Some ts : is_Some (_estimate_total_time (_schedule_tasks ts) ts).
Proof.
  apply estimate_is_Some.
  - unfold _schedule_tasks. destruct ts; [constructor | apply schedule_loop_nonempty].
  - intros tid. rewrite schedule_tasks_cover. apply elem_of_elements.
Qed.


Lemma analyze_fresh ts :
  NoDup (id <$> ts) → Forall (λ t, dependencies t = ∅) ts →
  file_deps_only (_analyze_dependencies ts).
Proof.
  intros Hnd Hfresh. unfold file_deps_only. rewrite file_op_ids_analyze.
  unfold _analyze_dependencies. apply Forall_forall. intros t (t0 & -> & Ht0)%list_elem_of_fmap.
  rewrite Forall_forall in Hfresh.
  case_bool_decide as Hda; simpl.
  - rewrite Hda, bool_decide_eq_true_2 by done.
    apply add_file_deps_fresh; auto. congruence.
  - rewrite bool_decide_eq_false_2 by done. auto.
Qed.


Lemma file_deps_only_ranked ts :
  NoDup (id <$> ts) → file_deps_only ts →
  ranked (task_dict_of ts) (analysis_rank (task_dict_of ts)).
Proof.
  intros Hnd Hshape tid t d Ht Hd.
  pose proof Ht as [Hin <-]%task_dict_of_Some.
  unfold file_deps_only in Hshape.
  rewrite Forall_forall in Hshape. rewrite (Hshape t Hin) in Hd.
  case_bool_decide as Hda; [| by apply not_elem_of_empty in Hd].
  unfold file_op_ids in Hd.
  apply elem_of_list_to_set, list_elem_of_fmap in Hd as (o & -> & [Ho Hino]%list_elem_of_filter).
  split.
  - rewrite task_dict_of_dom. apply elem_of_list_to_set, list_elem_of_fmap. eauto.
  - unfold analysis_rank. rewrite Ht, (task_dict_of_lookup ts o Hnd Hino).
    rewrite (bool_decide_eq_true_2 (intent t = _)) by done.
    rewrite (bool_decide_eq_false_2 (intent o = _)) by congruence. lia.
Qed.

End plan_facts.

(** ** The planner's claims *)

Section planner_claims.
Context {L : TextLib} {R : PyRuntime}.
Import FastPlanner.

Lemma plan_unfold start_time end_time q ctx intents :
  _classify_intent q ctx = Some intents →
  let ts := _analyze_dependencies (_decompose_tasks q intents ctx) in
  ∃ total,
    _estimate_total_time (_schedule_tasks ts) ts = Some total ∧
    plan start_time end_time q ctx
    = Some (mkPlanRun (mkPlan ts (_schedule_tasks ts) total true) (end_time - start_time)).
Proof.
  intros Hintents ts. destruct (estimate_schedule_is_Some ts) as [total Htotal].
  exists total. split; [done |]. unfold plan. rewrite Hintents. simpl. fold ts.
  by rewrite Htotal.
Qed.

(** What a plan that [plan] returned is made of. *)
Lemma plan_inv start_time end_time q ctx r :
  plan start_time end_time q ctx = Some r →
  ∃ intents total,
    _classify_intent q ctx = Some intents ∧
    let ts := _analyze_dependencies (_decompose_tasks q intents ctx) in
    _estimate_total_time (_schedule_tasks ts) ts = Some total ∧
    r = mkPlanRun (mkPlan ts (_schedule_tasks ts) total true) (end_time - start_time).
Proof.
  intros Hplan. destruct (_classify_intent q ctx) as [intents|] eqn:Hintents.
  - destruct (plan_unfold start_time end_time q ctx intents Hintents) as (total & Ht & Hr).
    exists intents, total. split; [done |]. split; [done |]. congruence.
  - unfold plan in Hplan. by rewrite Hintents in Hplan.
Qed.

Lemma plan_tasks start_time end_time q ctx r :
  plan start_time end_time q ctx = Some r →
  ∃ intents, _classify_intent q ctx = Some intents ∧
             tasks (returned r) = _analyze_dependencies (_decompose_tasks q intents ctx).
Proof.
  intros (intents & total & Hintents & _ & ->)%plan_inv. by exists intents.
Qed.

(** [plan] raises only where the classification does. *)
Lemma plan_None start_time end_time q ctx :
  plan start_time end_time q ctx = None ↔ _classify_intent q ctx = None.
Proof.
  split.
  - intros Hplan. destruct (_classify_intent q ctx) as [intents|] eqn:Hintents; [| done].
    destruct (plan_unfold start_time end_time q ctx intents Hintents) as (total & _ & Hr).
    congruence.
  - intros Hintents. unfold plan. by rewrite Hintents.
Qed.

Lemma planned_tasks_NoDup q intents ctx :
  NoDup (id <$> _analyze_dependencies (_decompose_tasks q intents ctx)).
Proof. rewrite analyze_ids. apply decompose_NoDup. Qed.

Lemma planned_tasks_shape q intents ctx :
  file_deps_only (_analyze_dependencies (_decompose_tasks q intents ctx)).
Proof. apply analyze_fresh; [apply decompose_NoDup | apply decompose_fresh]. Qed.

(** C1. In every plan that [plan] returns, the batches are a topological
    order of the tasks' dependency graph (every dependency of a task lies
    in a batch of strictly smaller index) and hold exactly the ids of the
    tasks, each id in one batch only. The graph [plan] builds is always
    acyclic: its only edges go from a DATA_ANALYSIS task to the FILE_OP
    tasks. *)
Theorem plan_batches_topological_cover (start_time end_time : Z) (q : string) (ctx : Context)
    (r : PlanRun) :
  plan start_time end_time q ctx = Some r →
  topological (tasks (returned r)) (parallel_batches (returned r)) ∧
  exact_cover (tasks (returned r)) (parallel_batches (returned r)).
Proof.
  intros (intents & total & _ & _ & ->)%plan_inv. simpl.
  pose proof (planned_tasks_NoDup q intents ctx) as Hnd.
  split.
  - eapply schedule_tasks_topological; [done |].
    apply file_deps_only_ranked; [done | apply planned_tasks_shape].
  - by apply schedule_tasks_exact_cover.
Qed.

Lemma analyze_changes_dependencies_only {P} (ts : list (Task P)) :
  Forall2 (λ t t', t' = with_dependencies (dependencies t') t) ts (_analyze_dependencies ts).
Proof.
  unfold _analyze_dependencies. apply Forall2_fmap_r, Forall_Forall2_diag, Forall_forall.
  intros t _. unfold compose. cbv beta. case_bool_decide; [done | by destruct t].
Qed.

(** C6. Dependency inference on the tasks of a decomposition returns the
    same tasks, in the same order, with nothing but their dependencies
    changed; afterwards the dependencies of a DATA_ANALYSIS task are exactly
    the ids of the FILE_OP tasks of the list, and the dependencies of any
    other task are empty. *)
Theorem analyze_dependencies_rule (q : string) (intents : list Intent) (ctx : Context) :
  let decomposed := _decompose_tasks q intents ctx in
  let ts := _analyze_dependencies decomposed in
  Forall2 (λ t t', t' = with_dependencies (dependencies t') t) decomposed ts ∧
  Forall (λ t, dependencies t =
               if bool_decide (intent t = DATA_ANALYSIS)
               then list_to_set (id <$> filter (λ o, intent o = FILE_OP) ts)
               else ∅) ts.
Proof.
  split; [apply analyze_changes_dependencies_only | apply planned_tasks_shape].
Qed.

Lemma match_patterns_none query detected :
  no_intent_pattern query = true → match_patterns (str_lower query) detected = detected.
Proof.
  unfold no_intent_pattern, match_patterns.
  generalize intent_patterns as table. intros table. revert detected.
  induction table as [|[i patterns] table IH]; intros detected Hno; simpl in *; [done |].
  apply andb_true_iff in Hno as [Hp Hno].
  replace (existsb _ patterns) with false; [by apply IH |].
  symmetry. apply not_true_iff_false. intros (p & Hin & Hm%bool_decide_eq_true)%existsb_exists.
  rewrite forallb_forall in Hp. apply Hp, bool_decide_eq_true in Hin.
  rewrite Hin in Hm. by destruct Hm.
Qed.

Lemma classify_no_pattern q ctx intents :
  no_intent_pattern q = true → uploaded_files ctx = [] →
  _classify_intent q ctx = Some intents → intents = [SIMPLE_QA].
Proof.
  intros Hno Hfiles. unfold _classify_intent. rewrite Hfiles. simpl.
  destruct (continuation_tools _ _); simpl; [| done].
  rewrite match_patterns_none by done. simpl. congruence.
Qed.

(** The lookup on continuation queries raises exactly on a continuation
    keyword with a last turn that is no dictionary. *)
Lemma continuation_tools_None q ctx :
  continuation_tools (str_lower q) ctx = None ↔ last_turn_unreadable q ctx.
Proof.
  unfold continuation_tools, last_turn_unreadable.
  destruct (any_in continuation_keywords (str_lower q)).
  - destruct (last (recent_turns ctx)) as [[entries | shown]|]; simpl.
    + split; [done | intros (_ & ? & ?); done].
    + split; [eauto | done].
    + split; [done | intros (_ & ? & ?); done].
  - split; [done | intros (? & _); done].
Qed.

Lemma classify_intent_None q ctx :
  _classify_intent q ctx = None ↔ last_turn_unreadable q ctx.
Proof.
  rewrite <- continuation_tools_None. unfold _classify_intent.
  destruct (continuation_tools _ _); simpl; split; done.
Qed.

End planner_claims.

(** The plan of [test_generates_complex_plan]: the upload and the text
    each give a FILE_OP task, the analysis waits for both. *)
Example csv_plan_batches :
  (λ r, ((λ t, (id t, intent t, elements (dependencies t))) <$> tasks (FastPlanner.returned r),
         parallel_batches (FastPlanner.returned r),
         total_estimated_ms (FastPlanner.returned r)))
  <$> @FastPlanner.plan py_text forward_runtime 0 0 csv_request csv_context
  = Some ([("task_0", FILE_OP, []); ("task_1", FILE_OP, []);
           ("task_2", DATA_ANALYSIS, ["task_1"; "task_0"])],
          [["task_1"; "task_0"]; ["task_2"]],
          2100).
Proof. vm_compute. reflexivity. Qed.

Lemma plan_batches_topological_cover_witness :
  ∃ r, @FastPlanner.plan py_text forward_runtime 0 0 csv_request csv_context = Some r ∧
       topological (tasks (FastPlanner.returned r)) (parallel_batches (FastPlanner.returned r)) ∧
       exact_cover (tasks (FastPlanner.returned r)) (parallel_batches (FastPlanner.returned r)).
Proof.
  destruct (@FastPlanner.plan py_text forward_runtime 0 0 csv_request csv_context)
    as [r|] eqn:Hplan.
  - exists r. split; [reflexivity |].
    exact (@plan_batches_topological_cover py_text forward_runtime 0 0
             csv_request csv_context r Hplan).
  - vm_compute in Hplan. discriminate Hplan.
Defined.

(** C4 fails on the code. The request [刚才说的是什么] holds no intent
    pattern and the context has no uploaded file, but the request holds
    the continuation keyword [刚才] and the last recent turn is a chat
    message, as the orchestrator passes them: [plan] raises instead of
    returning the plan without tasks. *)
Theorem continuation_query_raises (R : PyRuntime) (start_time end_time : Z) :
  @no_intent_pattern py_text "刚才说的是什么" = true ∧
  uploaded_files message_history_context = [] ∧
  @FastPlanner._classify_intent py_text "刚才说的是什么" message_history_context = None ∧
  @FastPlanner.plan py_text R start_time end_time "刚才说的是什么" message_history_context = None.
Proof.
  assert (@FastPlanner._classify_intent py_text "刚才说的是什么" message_history_context = None)
    as Hraise by (vm_compute; reflexivity).
  split_and!; [vm_compute; reflexivity | reflexivity | done |].
  by apply (@plan_None py_text R).
Qed.

(** ** The executor and the heap *)

Section heap_frame.
Context {F : FileSys} {R : PyRuntime}.
Import ParallelExecutor.

Lemma preserves_refl h : preserves h h.
Proof. by intros l _. Qed.

Lemma dict_set_preserves h0 h l k v :
  preserves h0 h → h0 !! l = None → preserves h0 (dict_set l k v h).2.
Proof.
  intros Hp Hl l' Hl'. simpl. rewrite lookup_alter_ne; [by apply Hp |].
  intros ->. rewrite Hl in Hl'. by destruct Hl'.
Qed.

Lemma dict_copy_preserves h0 h d :
  preserves h0 h →
  preserves h0 (dict_copy d h).2 ∧ h0 !! (dict_copy d h).1 = None ∧ h !! (dict_copy d h).1 = None.
Proof.
  intros Hp. simpl.
  assert (h !! fresh (dom h) = None) as Hfresh by (apply not_elem_of_dom, is_fresh).
  assert (h0 !! fresh (dom h) = None) as Hfresh0.
  { destruct (h0 !! fresh (dom h)) eqn:E; [| done].
    rewrite <- (Hp (fresh (dom h))) in E by (by rewrite E). congruence. }
  split_and!; try done.
  intros l Hl. rewrite lookup_insert_ne; [by apply Hp |].
  intros <-. rewrite Hfresh0 in Hl. by destruct Hl.
Qed.

Lemma resolve_image_path_preserves h0 h l :
  preserves h0 h → h0 !! l = None → preserves h0 (resolve_image_path l h).2.
Proof.
  intros Hp Hl. unfold resolve_image_path. munfold.
  repeat case_match; simpl; try done; by apply dict_set_preserves.
Qed.

Lemma resolve_file_path_preserves h0 h l :
  preserves h0 h → h0 !! l = None → preserves h0 (resolve_file_path l h).2.
Proof.
  intros Hp Hl. unfold resolve_file_path. munfold.
  repeat case_match; simpl; try done; by apply dict_set_preserves.
Qed.

Lemma inject_one_preserves task prev h0 h l dep :
  preserves h0 h → h0 !! l = None → preserves h0 (inject_one task prev l dep h).2.
Proof.
  intros Hp Hl. unfold inject_one. munfold.
  repeat case_match; simpl; try done; by apply dict_set_preserves.
Qed.

Lemma inject_deps_preserves task prev h0 h l deps :
  preserves h0 h → h0 !! l = None → preserves h0 (inject_deps task prev l deps h).2.
Proof.
  revert h. induction deps as [|dep deps IH]; intros h Hp Hl; simpl; [done |]. munfold.
  pose proof (inject_one_preserves task prev h0 h l dep Hp Hl) as Hp'.
  destruct (inject_one task prev l dep h) as [[] h']. by apply IH.
Qed.

Lemma resolve_params_preserves task prev h0 h :
  preserves h0 h → preserves h0 (_resolve_params task prev h).2.
Proof.
  intros Hp. unfold _resolve_params. munfold.
  destruct (dict_copy_preserves h0 h (params task) Hp) as (Hp1 & Hl & _).
  simpl in Hp1, Hl. set (l := fresh (dom h)) in *.
  pose proof (resolve_image_path_preserves h0 _ l Hp1 Hl) as Hp2.
  destruct (resolve_image_path l _) as [[] h2]. simpl in Hp2.
  pose proof (resolve_file_path_preserves h0 _ l Hp2 Hl) as Hp3.
  destruct (resolve_file_path l _) as [[] h3]. simpl in Hp3.
  pose proof (inject_deps_preserves task prev h0 _ l (set_iter (dependencies task)) Hp3 Hl) as Hp4.
  by destruct (inject_deps task prev l _ h3) as [[] h4].
Qed.

Lemma execute_task_preserves registry task prev h0 h :
  preserves h0 h → preserves h0 (_execute_task registry task prev h).2.
Proof.
  intros Hp. unfold _execute_task. destruct (registry !! tool task) as [tool_func|]; [| done].
  munfold. pose proof (resolve_params_preserves task prev h0 h Hp) as Hp'.
  destruct (_resolve_params task prev h) as [l h']. unfold dict_read.
  by destruct (ended _).
Qed.

Lemma submit_all_preserves registry ts prev h0 h :
  preserves h0 h → preserves h0 (submit_all registry ts prev h).2.
Proof.
  revert h. induction ts as [|task ts IH]; intros h Hp; simpl; [done |]. munfold.
  pose proof (execute_task_preserves registry task prev h0 h Hp) as Hp'.
  destruct (_execute_task registry task prev h) as [r h'].
  specialize (IH h' Hp'). by destruct (submit_all registry ts prev h') as [fs h''].
Qed.

Lemma execute_batch_preserves self registry ts prev h0 h :
  preserves h0 h → preserves h0 (_execute_batch self registry ts prev h).2.
Proof.
  intros Hp. unfold _execute_batch. munfold.
  pose proof (submit_all_preserves registry ts prev h0 h Hp).
  by destruct (submit_all registry ts prev h).
Qed.

Lemma execute_batches_preserves self registry ts batches results h0 h :
  preserves h0 h → preserves h0 (execute_batches self registry ts batches results h).2.
Proof.
  revert results h. induction batches as [|b batches IH]; intros results h Hp; simpl; [done |].
  munfold.
  pose proof (execute_batch_preserves self registry (filter (λ t, id t ∈ b) ts) results h0 h Hp).
  destruct (_execute_batch self registry _ results h) as [br h']. by apply IH.
Qed.

(** C10. Executing a plan leaves the [params] dictionary of every task of
    the plan as it was: parameter resolution writes to a copy. *)
Theorem execute_keeps_task_params (self : Executor) (registry : gmap string tool_fn)
    (plan : ExecutionPlan loc) (h : heap) :
  Forall (λ t, is_Some (h !! params t)) (tasks plan) →
  Forall (λ t, (execute self registry plan h).2 !! params t = h !! params t) (tasks plan).
Proof.
  intros Hall. eapply Forall_impl; [exact Hall |]. intros t Ht. simpl in *.
  by apply execute_batches_preserves; [apply preserves_refl |].
Qed.

End heap_frame.

(** ** Dependency injection *)

Section injection.
Context {F : FileSys} {R : PyRuntime}.
Import ParallelExecutor.

Lemma inject_one_step task prev l dep h :
  inject_one task prev l dep h =
  (tt, match succeeded prev dep, inject_key (intent task) (entry h (params task) "operation") with
       | Some out, Some k => alter (<[k := out]>) l h
       | _, _ => h
       end).
Proof.
  unfold inject_one, succeeded, inject_key, entry.
  destruct (od_get dep prev) as [r|]; [| done].
  destruct (success r); [| done].
  destruct (intent task); simpl; try done.
  unfold dict_get. munfold. by case_bool_decide.
Qed.

Lemma entry_alter_ne h l l' k f :
  l ≠ l' → entry (alter f l h) l' k = entry h l' k.
Proof. intros Hne. unfold entry. by rewrite lookup_alter_ne. Qed.

Lemma entry_alter_insert h l k v :
  is_Some (h !! l) → entry (alter (<[k := v]>) l h) l k = Some v.
Proof.
  intros [d Hd]. unfold entry. rewrite lookup_alter_eq, Hd. simpl. apply lookup_insert_eq.
Qed.

(** The loop over the dependencies: the key ends up holding the output of
    a successful dependency, when there is one and all of them agree. *)
Lemma inject_deps_agree task prev l deps h k v :
  l ≠ params task → is_Some (h !! l) →
  inject_key (intent task) (entry h (params task) "operation") = Some k →
  (∀ dep out, dep ∈ deps → succeeded prev dep = Some out → out = v) →
  let h' := (inject_deps task prev l deps h).2 in
  is_Some (h' !! l) ∧
  (entry h l k = Some v → entry h' l k = Some v) ∧
  ((∃ dep out, dep ∈ deps ∧ succeeded prev dep = Some out) → entry h' l k = Some v).
Proof.
  intros Hne. revert h. induction deps as [|dep deps IH]; intros h Hl Hk Hall; simpl.
  - split_and!; [done | done |]. by intros (? & ? & []%elem_of_nil & _).
  - munfold. rewrite inject_one_step, Hk.
    destruct (succeeded prev dep) as [out|] eqn:Hs.
    + assert (out = v) as -> by (eapply Hall; [left | done]).
      destruct (IH (alter (<[k := v]>) l h)) as (Hl' & Hkeep & _).
      * rewrite lookup_alter_eq. by destruct Hl as [? ->].
      * by rewrite entry_alter_ne.
      * intros ? ? ? ?. eapply Hall; [by right | done].
      * destruct (inject_deps task prev l deps _) as [[] h'] eqn:E. simpl in *.
        pose proof (Hkeep (entry_alter_insert h l k v Hl)). auto.
    + destruct (IH h Hl Hk) as (Hl' & Hkeep & Hex).
      * intros ? ? ? ?. eapply Hall; [by right | done].
      * destruct (inject_deps task prev l deps h) as [[] h'] eqn:E. simpl in *.
        split_and!; [done | done |].
        intros (dep' & out & [-> | Hin]%elem_of_cons & Hs'); [congruence | eauto].
Qed.

Lemma dict_set_alloc h l l' k v :
  is_Some (h !! l') → is_Some ((dict_set l k v h).2 !! l').
Proof.
  intros [d Hd]. simpl. destruct (decide (l = l')) as [-> | Hne].
  - rewrite lookup_alter_eq, Hd. by eexists.
  - rewrite lookup_alter_ne, Hd by done. by eexists.
Qed.

Lemma resolve_image_path_alloc h l l' :
  is_Some (h !! l') → is_Some ((resolve_image_path l h).2 !! l').
Proof.
  intros Hl. unfold resolve_image_path. munfold.
  repeat case_match; simpl; try done; by apply dict_set_alloc.
Qed.

Lemma resolve_file_path_alloc h l l' :
  is_Some (h !! l') → is_Some ((resolve_file_path l h).2 !! l').
Proof.
  intros Hl. unfold resolve_file_path. munfold.
  repeat case_match; simpl; try done; by apply dict_set_alloc.
Qed.

(** What [_resolve_params] leaves under the injection key. *)
Lemma resolve_params_agree task prev h k v :
  is_Some (h !! params task) →
  inject_key (intent task) (entry h (params task) "operation") = Some k →
  (∀ dep out, dep ∈ dependencies task → succeeded prev dep = Some out → out = v) →
  (∃ dep out, dep ∈ dependencies task ∧ succeeded prev dep = Some out) →
  entry (_resolve_params task prev h).2 (_resolve_params task prev h).1 k = Some v.
Proof.
  intros Halloc Hk Hall Hex. unfold _resolve_params. munfold.
  set (l := fresh (dom h)).
  assert (l ≠ params task) as Hne.
  { intros Heq. apply (is_fresh (dom h)). fold l. rewrite Heq. by apply elem_of_dom. }
  set (h1 := <[l := default ∅ (h !! params task)]> h).
  assert (preserves h h1) as Hp1.
  { intros l' Hl'. unfold h1. rewrite lookup_insert_ne; [done |].
    intros <-. apply (is_fresh (dom h)). by apply elem_of_dom. }
  assert (is_Some (h1 !! l)) as Hl1 by (unfold h1; rewrite lookup_insert_eq; by eexists).
  assert (h !! l = None) as Hfresh by (apply not_elem_of_dom, is_fresh).
  pose proof (resolve_image_path_preserves h h1 l Hp1 Hfresh) as Hp2.
  pose proof (resolve_image_path_alloc h1 l l Hl1) as Hl2.
  destruct (resolve_image_path l h1) as [[] h2]. simpl in Hp2, Hl2.
  pose proof (resolve_file_path_preserves h h2 l Hp2 Hfresh) as Hp3.
  pose proof (resolve_file_path_alloc h2 l l Hl2) as Hl3.
  destruct (resolve_file_path l h2) as [[] h3]. simpl in Hp3, Hl3.
  destruct (inject_deps_agree task prev l (set_iter (dependencies task)) h3 k v)
    as (_ & _ & Hput); try done.
  - unfold entry. rewrite (Hp3 (params task) Halloc). exact Hk.
  - intros dep out Hin. apply Hall. by apply elem_of_set_iter.
  - destruct (inject_deps task prev l _ h3) as [[] h4]. simpl in *.
    apply Hput. destruct Hex as (dep & out & Hin & Hs). exists dep, out.
    split; [by apply elem_of_set_iter | done].
Qed.

(** C5, amended. When a task has a dependency with a successful result,
    and the successful results of its dependencies all carry the same
    output (as when there is one dependency), parameter resolution puts that
    output in the resolved parameters: under [data] for a DATA_ANALYSIS
    task, under [content] for a FILE_OP task whose declared operation is
    [write]. *)
Theorem resolve_params_injects_output (task : Task loc) (prev : odict ToolResult)
    (h : heap) (v : pyval) :
  is_Some (h !! params task) →
  (∃ dep out, dep ∈ dependencies task ∧ succeeded prev dep = Some out) →
  (∀ dep out, dep ∈ dependencies task → succeeded prev dep = Some out → out = v) →
  let resolved := _resolve_params task prev h in
  match intent task with
  | DATA_ANALYSIS => entry resolved.2 resolved.1 "data" = Some v
  | FILE_OP =>
      if bool_decide (entry h (params task) "operation" = Some (VStr "write"))
      then entry resolved.2 resolved.1 "content" = Some v
      else True
  | _ => True
  end.
Proof.
  intros Halloc Hex Hall resolved. unfold resolved.
  destruct (intent task) eqn:Hi; try done.
  - case_bool_decide as Hop; [| done].
    apply resolve_params_agree; try done. rewrite Hi. simpl. by rewrite bool_decide_eq_true_2.
  - apply resolve_params_agree; try done. by rewrite Hi.
Qed.

End injection.

Lemma execute_keeps_task_params_witness :
  Forall (λ t, (@ParallelExecutor.execute all_exist_fs forward_runtime
                  ParallelExecutor.parallel_executor file_registry pipeline_plan pipeline_heap).2
               !! params t = pipeline_heap !! params t)
         (tasks pipeline_plan).
Proof.
  apply execute_keeps_task_params.
  repeat constructor; apply (bool_decide_unpack _); vm_compute; exact I.
Defined.

Lemma resolve_params_injects_output_witness :
  entry (@ParallelExecutor._resolve_params all_exist_fs forward_runtime
           write_after_a hello_results write_heap).2
        (@ParallelExecutor._resolve_params all_exist_fs forward_runtime
           write_after_a hello_results write_heap).1
        "content" = Some (VStr "hello").
Proof.
  assert (is_Some (write_heap !! params write_after_a)) as H1
    by (apply (bool_decide_unpack _); vm_compute; exact I).
  assert (∃ dep out, dep ∈ dependencies write_after_a ∧ succeeded hello_results dep = Some out)
    as H2 by (exists "A", (VStr "hello"); split; [simpl; by apply elem_of_singleton | reflexivity]).
  assert (∀ dep out, dep ∈ dependencies write_after_a →
                     succeeded hello_results dep = Some out → out = VStr "hello") as H3.
  { intros dep out Hin. simpl in Hin. apply elem_of_singleton in Hin as ->.
    vm_compute. congruence. }
  exact (@resolve_params_injects_output all_exist_fs forward_runtime
           write_after_a hello_results write_heap (VStr "hello") H1 H2 H3).
Defined.

(** C5 as stated fails: with two successful dependencies of different
    outputs, [data] holds one output only. *)
Lemma two_dependencies_one_data :
  ¬ @injects_each_dependency all_exist_fs forward_runtime
      two_image_analysis two_image_results two_image_heap.
Proof.
  intros Hclaim.
  pose proof (Hclaim "task_0" (VStr "a cat")) as H0.
  pose proof (Hclaim "task_1" (VStr "a dog")) as H1.
  assert ("task_0" ∈ dependencies two_image_analysis) as Hin0 by (simpl; set_solver).
  assert ("task_1" ∈ dependencies two_image_analysis) as Hin1 by (simpl; set_solver).
  specialize (H0 Hin0 eq_refl). specialize (H1 Hin1 eq_refl).
  simpl in H0, H1. rewrite H0 in H1. discriminate.
Qed.

(** ** Timeouts and exceptions *)

(** A future that is done never times out. *)
Lemma done_future_result (timeout : Z) (stored : ToolResult + exc) :
  ParallelExecutor.future_result 0 timeout stored
  = match stored with
    | inl result => inl result
    | inr e => inr (ParallelExecutor.Exception e)
    end.
Proof. reflexivity. Qed.

(** C2 fails on the code. A search whose tool answers after 31 s, beyond
    the 30 s of its intent, is reported as a success with the time it took:
    the batch loop asks a future for its result only once it is done. *)
Theorem slow_search_is_not_timed_out :
  ParallelExecutor._get_timeout ParallelExecutor.parallel_executor slow_search = 30 ∧
  (@ParallelExecutor.execute all_exist_fs forward_runtime
     ParallelExecutor.parallel_executor slow_registry slow_search_plan slow_search_heap).1
  = [("task_0", mkResult "task_0" "intelligent_search" true (VStr "late") None 31000)].
Proof. split; vm_compute; reflexivity. Qed.

(** C7 fails on the code. When the tool raises [ValueError("bad input")],
    the error of the result is the message alone; the type name is not in
    it. *)
Theorem raised_error_is_message_only :
  (@ParallelExecutor.execute all_exist_fs forward_runtime
     ParallelExecutor.parallel_executor raising_registry slow_search_plan slow_search_heap).1
  = [("task_0", mkResult "task_0" "intelligent_search" false VNone (Some "bad input") 3)] ∧
  str_in "ValueError" "bad input" = false.
Proof. split; vm_compute; reflexivity. Qed.

(** Whatever a registered tool raises, the result carries [str(e)] only. *)
Lemma execute_task_raises {F : FileSys} {R : PyRuntime} registry task prev h tool_func e :
  registry !! tool task = Some tool_func →
  (∀ kwargs, ended (tool_func kwargs) = Raises e) →
  success (ParallelExecutor._execute_task registry task prev h).1 = false ∧
  error (ParallelExecutor._execute_task registry task prev h).1 = Some (exc_str e).
Proof.
  intros Hreg Hraise. unfold ParallelExecutor._execute_task. rewrite Hreg. munfold.
  destruct (ParallelExecutor._resolve_params task prev h) as [l h'].
  unfold dict_read. by rewrite Hraise.
Qed.

(** ** The fallback formatter *)

Lemma str_in_append_r (q a s : string) : str_in q s = true → str_in q (a +:+ s) = true.
Proof.
  intros Hq. induction a as [|c a IH]; [done |].
  change (str_in q (String c (a +:+ s)) = true).
  unfold str_in; fold str_in. rewrite IH. apply orb_true_r.
Qed.


Import ResultPolisher.



(** C8 fails on the code: for one successful result whose output is the
    empty string, as the read of an empty text file gives, the fallback
    answer is the empty string. *)
Theorem fallback_empty_for_silent_success :
  List.filter success (od_values silent_results)
  = [ok_result "task_0" "file_operations" (VStr EmptyString) 4] ∧
  _fallback_format "读取 notes.txt" silent_results = EmptyString ∧
  ¬ fallback_never_empty "读取 notes.txt" silent_results.
Proof.
  split_and!; [reflexivity | reflexivity |]. intros [Hne _]. by apply Hne.
Qed.

(** ** The end-to-end scenario *)

Section square_sum.
Import FastPlanner.

Lemma square_sum_intents :
  @_classify_intent py_text square_sum_request no_context = Some [CALCULATE].
Proof. vm_compute. reflexivity. Qed.

Lemma square_sum_tasks :
  _analyze_dependencies
    (@_decompose_tasks py_text square_sum_request [CALCULATE] no_context)
  = [range_sum_task].
Proof. vm_compute. reflexivity. Qed.

Lemma range_sum_output :
  CodeTool.run (range_sum_code "1" "10") = Some ("1 到 10 的和是: 55" +:+ nl).
Proof. vm_compute. reflexivity. Qed.

(** C3, amended. For the request and no uploaded file, the planner
    detects CALCULATE alone and emits one task, of tool [code_execution],
    whose code is the range-sum program [sum(range(1, 10+1))]; run, it
    prints the sum 55 of 1..10, and 385 is not in its output. *)
Theorem square_sum_request_gets_range_sum {R : PyRuntime} (start_time end_time : Z) :
  ∃ r, @plan py_text R start_time end_time square_sum_request no_context = Some r ∧
       @_classify_intent py_text square_sum_request no_context = Some [CALCULATE] ∧
       tasks (returned r) = [range_sum_task] ∧
       tool range_sum_task = "code_execution" ∧
       params range_sum_task !! "code" = Some (VStr (range_sum_code "1" "10")) ∧
       CodeTool.run (range_sum_code "1" "10") = Some ("1 到 10 的和是: 55" +:+ nl) ∧
       str_in "385" ("1 到 10 的和是: 55" +:+ nl) = false.
Proof.
  destruct (@plan_unfold py_text R start_time end_time square_sum_request no_context
              [CALCULATE] square_sum_intents) as (total & _ & ->).
  eexists. split; [done |]. simpl. rewrite square_sum_tasks.
  split_and!; try done; vm_compute; reflexivity.
Qed.

(** C3 as stated fails: the code of the one task prints 55. *)
Lemma square_sum_scenario_fails : ¬ @square_sum_scenario py_text forward_runtime.
Proof.
  intros (r & t & code & out & Hplan & _ & Htasks & _ & Hcode & Hrun & H385).
  apply (@plan_tasks py_text forward_runtime) in Hplan as (intents & Hintents & Hplan).
  rewrite square_sum_intents in Hintents.
  assert (intents = [CALCULATE]) as -> by congruence.
  rewrite Hplan, square_sum_tasks in Htasks.
  assert (t = range_sum_task) as -> by congruence.
  assert (code = range_sum_code "1" "10") as -> by (vm_compute in Hcode; vm_compute; congruence).
  rewrite range_sum_output in Hrun.
  assert (out = "1 到 10 的和是: 55" +:+ nl) as -> by congruence.
  vm_compute in H385. discriminate.
Qed.

End square_sum.

(** ** Across interpreter processes

    Within one process the order in which a set is iterated is fixed, and
    the results above hold for any such order. Two processes may iterate
    the same set in different orders; the plans then have the same tasks,
    and batch by batch the same ids, in possibly different order. *)

Lemma filter_bool_perm {A} (f : A → bool) (l1 l2 : list A) :
  l1 ≡ₚ l2 → List.filter f l1 ≡ₚ List.filter f l2.
Proof.
  induction 1 as [|x l1 l2 _ IH|x y l|l1 l2 l3 _ IH1 _ IH2]; simpl.
  - done.
  - destruct (f x); [by constructor | done].
  - destruct (f x), (f y); try done. apply Permutation_swap.
  - by etrans.
Qed.

Section two_runtimes.
Context {P : Type} (R1 R2 : PyRuntime).
Implicit Types (td : gmap string (Task P)) (rem : gset string).
Import FastPlanner.

Lemma set_iter_runtimes rem : @set_iter R1 rem ≡ₚ @set_iter R2 rem.
Proof. by rewrite !set_iter_perm. Qed.

Lemma round_ready_runtimes td rem : @round_ready R1 P td rem ≡ₚ @round_ready R2 P td rem.
Proof.
  unfold round_ready.
  pose proof (filter_bool_perm (is_ready td (dom td ∖ rem)) _ _ (set_iter_runtimes rem)) as Hf.
  destruct (List.filter _ (@set_iter R1 rem)) as [|x l1], (List.filter _ (@set_iter R2 rem)) as [|y l2];
    try done.
  - apply set_iter_runtimes.
  - by apply Permutation_nil_cons in Hf.
  - symmetry in Hf. by apply Permutation_nil_cons in Hf.
Qed.

Lemma next_batch_runtimes td rem : @next_batch R1 P td rem ≡ₚ @next_batch R2 P td rem.
Proof. rewrite !next_batch_perm. apply round_ready_runtimes. Qed.

Lemma schedule_loop_runtimes fuel td rem :
  Forall2 (≡ₚ) (@schedule_loop R1 P fuel td rem) (@schedule_loop R2 P fuel td rem).
Proof.
  revert rem. induction fuel as [|fuel IH]; intros rem; simpl; [constructor |].
  case_decide; [constructor |]. constructor; [apply next_batch_runtimes |].
  rewrite (list_to_set_perm_L (C:=gset string) _ _ (next_batch_runtimes td rem)). apply IH.
Qed.

Lemma schedule_tasks_runtimes (ts : list (Task P)) :
  Forall2 (≡ₚ) (@_schedule_tasks R1 P ts) (@_schedule_tasks R2 P ts).
Proof. unfold _schedule_tasks. destruct ts; [constructor | apply schedule_loop_runtimes]. Qed.

End two_runtimes.

(** The estimate of a batch does not depend on the order of its ids. *)
Lemma mapM_perm {A B} (f : A → option B) (l1 l2 : list A) :
  l1 ≡ₚ l2 →
  match mapM f l1, mapM f l2 with
  | Some k1, Some k2 => k1 ≡ₚ k2
  | None, None => True
  | _, _ => False
  end.
Proof.
  induction 1 as [|x l1 l2 _ IH|x y l|l1 l2 l3 _ IH1 _ IH2]; cbn.
  - done.
  - destruct (f x); cbn; [| done].
    destruct (mapM f l1), (mapM f l2); cbn; try done. by constructor.
  - destruct (f x), (f y); cbn; try done.
    destruct (mapM f l); cbn; [apply Permutation_swap | done].
  - destruct (mapM f l1), (mapM f l2), (mapM f l3); try done. by etrans.
Qed.

Lemma max_fold_spec (t : Z) (times : list Z) :
  foldl Z.max t times ∈ t :: times ∧ Forall (λ x, x <= foldl Z.max t times) (t :: times).
Proof.
  revert t. induction times as [|x times IH]; intros t; simpl.
  - split; [by left | repeat constructor; lia].
  - destruct (IH (Z.max t x)) as [Hin [Hle Hall]%Forall_cons].
    split.
    + apply elem_of_cons in Hin as [-> | Hin].
      * destruct (Z.max_spec t x) as [[_ ->] | [_ ->]]; [right; by left | by left].
      * by do 2 right.
    + constructor; [lia |]. constructor; [lia | done].
Qed.

Lemma max_fold_perm (t1 t2 : Z) (k1 k2 : list Z) :
  t1 :: k1 ≡ₚ t2 :: k2 → foldl Z.max t1 k1 = foldl Z.max t2 k2.
Proof.
  intros Hperm.
  destruct (max_fold_spec t1 k1) as [Hin1 Hall1], (max_fold_spec t2 k2) as [Hin2 Hall2].
  rewrite Forall_forall in Hall1, Hall2.
  rewrite Hperm in Hin1. rewrite <- Hperm in Hin2.
  specialize (Hall1 _ Hin2). specialize (Hall2 _ Hin1). lia.
Qed.

Lemma batch_time_perm {P} (td : gmap string (Task P)) (b1 b2 : list string) :
  b1 ≡ₚ b2 → FastPlanner.batch_time td b1 = FastPlanner.batch_time td b2.
Proof.
  intros Hperm. unfold FastPlanner.batch_time.
  pose proof (mapM_perm (λ tid, estimated_time_ms <$> td !! tid) b1 b2 Hperm) as Hm.
  destruct (mapM _ b1) as [k1|], (mapM _ b2) as [k2|]; try done. cbn.
  destruct k1 as [|t1 k1], k2 as [|t2 k2]; try done.
  - by apply Permutation_nil_cons in Hm.
  - symmetry in Hm. by apply Permutation_nil_cons in Hm.
  - f_equal. by apply max_fold_perm.
Qed.

Lemma estimate_total_time_perm {P} (ts : list (Task P)) (batches1 batches2 : list (list string)) :
  Forall2 (≡ₚ) batches1 batches2 →
  FastPlanner._estimate_total_time batches1 ts = FastPlanner._estimate_total_time batches2 ts.
Proof.
  unfold FastPlanner._estimate_total_time. generalize (Some 0). intros total Hperm.
  revert total. induction Hperm as [|b1 b2 bs1 bs2 Hb _ IH]; intros total; simpl; [done |].
  rewrite (batch_time_perm _ b1 b2 Hb). apply IH.
Qed.

(** C9, amended. Two calls of [plan] on the same request and context, in
    one interpreter process or in two, at any readings of the clock: when
    one returns a plan, so does the other, with the same tasks, the same
    estimate, the same polish flag, and batch by batch the same ids,
    possibly in another order inside a batch; the two plans are identical
    when both calls iterate sets in the same order. *)
Theorem plan_same_up_to_batch_order {L : TextLib} (R1 R2 : PyRuntime)
    (start1 end1 start2 end2 : Z) (q : string) (ctx : Context) (r1 : FastPlanner.PlanRun) :
  @FastPlanner.plan L R1 start1 end1 q ctx = Some r1 →
  ∃ r2,
    @FastPlanner.plan L R2 start2 end2 q ctx = Some r2 ∧
    tasks (FastPlanner.returned r1) = tasks (FastPlanner.returned r2) ∧
    total_estimated_ms (FastPlanner.returned r1) = total_estimated_ms (FastPlanner.returned r2) ∧
    requires_llm_polish (FastPlanner.returned r1)
    = requires_llm_polish (FastPlanner.returned r2) ∧
    Forall2 (≡ₚ) (parallel_batches (FastPlanner.returned r1))
                 (parallel_batches (FastPlanner.returned r2)) ∧
    (R1 = R2 → FastPlanner.returned r1 = FastPlanner.returned r2).
Proof.
  intros (intents & total1 & Hintents & Htotal1 & ->)%plan_inv.
  destruct (@plan_unfold L R2 start2 end2 q ctx intents Hintents) as (total2 & Htotal2 & ->).
  eexists. split; [done |]. simpl.
  pose proof (schedule_tasks_runtimes R1 R2
                (FastPlanner._analyze_dependencies (FastPlanner._decompose_tasks q intents ctx)))
    as Hbatches.
  assert (total1 = total2) as ->.
  { rewrite (estimate_total_time_perm _ _ _ Hbatches) in Htotal1. congruence. }
  split_and!; [done | done | done | done |].
  by intros ->.
Qed.

Lemma plan_same_up_to_batch_order_witness :
  ∃ r1 r2,
    @FastPlanner.plan py_text forward_runtime 0 3 search_and_scrape_request no_context = Some r1 ∧
    @FastPlanner.plan py_text backward_runtime 9 20 search_and_scrape_request no_context
    = Some r2 ∧
    tasks (FastPlanner.returned r1) = tasks (FastPlanner.returned r2) ∧
    total_estimated_ms (FastPlanner.returned r1) = total_estimated_ms (FastPlanner.returned r2) ∧
    requires_llm_polish (FastPlanner.returned r1)
    = requires_llm_polish (FastPlanner.returned r2) ∧
    Forall2 (≡ₚ) (parallel_batches (FastPlanner.returned r1))
                 (parallel_batches (FastPlanner.returned r2)) ∧
    (forward_runtime = backward_runtime → FastPlanner.returned r1 = FastPlanner.returned r2).
Proof.
  destruct (@FastPlanner.plan py_text forward_runtime 0 3 search_and_scrape_request no_context)
    as [r1|] eqn:Hplan.
  - exists r1.
    destruct (@plan_same_up_to_batch_order py_text forward_runtime backward_runtime
                0 3 9 20 search_and_scrape_request no_context r1 Hplan) as (r2 & Hr2 & Hsame).
    exists r2. split; [reflexivity |]. split; [exact Hr2 | exact Hsame].
  - vm_compute in Hplan. discriminate Hplan.
Defined.

(** C9 as stated fails between two interpreter processes: the order inside
    a batch follows the order in which the set of remaining ids is
    iterated, so the two ids of equal priority come out in either order
    and the two plans are not identical. *)
Lemma batch_order_follows_iteration :
  (parallel_batches ∘ FastPlanner.returned <$>
     @FastPlanner.plan py_text forward_runtime 0 0 search_and_scrape_request no_context)
  = Some [["task_1"; "task_0"]] ∧
  (parallel_batches ∘ FastPlanner.returned <$>
     @FastPlanner.plan py_text backward_runtime 0 0 search_and_scrape_request no_context)
  = Some [["task_0"; "task_1"]] ∧
  (FastPlanner.returned <$>
     @FastPlanner.plan py_text forward_runtime 0 0 search_and_scrape_request no_context)
  ≠ (FastPlanner.returned <$>
     @FastPlanner.plan py_text backward_runtime 0 0 search_and_scrape_request no_context).
Proof.
  split_and!; [vm_compute; reflexivity | vm_compute; reflexivity |].
  intros Heq. apply (f_equal (fmap parallel_batches)) in Heq.
  vm_compute in Heq. discriminate Heq.
Qed.

(** * Further properties of the planner *)

(** ** Scheduling arbitrary task lists *)

Lemma insert_desc_sorted {A} (key : A → Z) x l :
  StronglySorted (λ a b, key b <= key a) l →
  StronglySorted (λ a b, key b <= key a) (insert_desc key x l).
Proof.
  induction 1 as [|y l Hl IH Hy]; simpl.
  - repeat constructor.
  - destruct (key y <=? key x) eqn:E.
    + apply Z.leb_le in E. constructor; [by constructor |].
      constructor; [done |]. eapply Forall_impl; [exact Hy |]. simpl. lia.
    + apply Z.leb_gt in E. constructor; [done |].
      rewrite insert_desc_perm. constructor; [lia | done].
Qed.

Lemma sort_desc_sorted {A} (key : A → Z) l :
  StronglySorted (λ a b, key b <= key a) (sort_desc key l).
Proof.
  induction l as [|x l IH]; simpl; [constructor | by apply insert_desc_sorted].
Qed.

Section schedule_any.
Context {R : PyRuntime} {P : Type}.
Implicit Types (ts : list (Task P)).
Import FastPlanner.

(** Whatever the dependencies are (cyclic, or naming ids that do not
    exist) and whether or not ids repeat, scheduling puts every id of the
    list in the batches, once, and makes no empty batch. *)
Theorem schedule_any_tasks_partition ts :
  Forall (λ b, b ≠ []) (_schedule_tasks ts) ∧
  NoDup (concat (_schedule_tasks ts)) ∧
  ∀ tid, tid ∈ concat (_schedule_tasks ts) ↔ tid ∈ (id <$> ts).
Proof.
  split_and!.
  - unfold _schedule_tasks. destruct ts; [constructor | apply schedule_loop_nonempty].
  - rewrite schedule_tasks_cover. apply NoDup_elements.
  - intros tid. rewrite schedule_tasks_cover, elem_of_elements, task_dict_of_dom.
    apply elem_of_list_to_set.
Qed.

Lemma schedule_loop_sorted fuel (td : gmap string (Task P)) rem :
  Forall (StronglySorted (λ a b,
            match td !! b with Some t => priority t | None => 0 end
            <= match td !! a with Some t => priority t | None => 0 end))
         (schedule_loop fuel td rem).
Proof.
  revert rem. induction fuel as [|fuel IH]; intros rem; simpl; [constructor |].
  case_decide; constructor; [| apply IH].
  unfold next_batch. apply (sort_desc_sorted (λ tid, match td !! tid with Some t => priority t | None => 0 end)).
Qed.

(** Inside every batch the ids are listed by non-increasing priority. *)
Theorem schedule_batches_by_priority ts :
  Forall (by_priority ts) (_schedule_tasks ts).
Proof.
  unfold _schedule_tasks, by_priority, priority_of.
  destruct ts as [|t ts]; [constructor |]. apply schedule_loop_sorted.
Qed.

(** When no task is ready at the start, every task having some dependency
    (a cycle, for instance), all the ids are forced into one batch. *)
Theorem schedule_forced_single_batch ts :
  ts ≠ [] → Forall (λ t, dependencies t ≠ ∅) ts →
  ∃ batch, _schedule_tasks ts = [batch] ∧ batch ≡ₚ elements (dom (task_dict_of ts)).
Proof.
  intros Hne Hdeps. unfold _schedule_tasks. destruct ts as [|t0 ts0]; [done |].
  set (ts := t0 :: ts0) in *. set (td := task_dict_of ts).
  assert (dom td ≠ ∅) as Hdom.
  { unfold td. rewrite task_dict_of_dom. simpl. set_solver. }
  destruct (size (dom td)) as [|n] eqn:Hsz; [by apply size_empty_inv, leibniz_equiv in Hsz |].
  simpl. rewrite decide_False by done.
  assert (round_ready td (dom td) = set_iter (dom td)) as Hround.
  { unfold round_ready.
    replace (List.filter _ _) with (@nil string); [done |].
    symmetry. apply elem_of_nil_inv. intros tid [Hr Hin]%elem_of_filter_bool.
    unfold is_ready in Hr. destruct (td !! tid) as [t|] eqn:Ht; [| done].
    apply task_dict_of_Some in Ht as [Hint _].
    rewrite Forall_forall in Hdeps. specialize (Hdeps t Hint).
    apply orb_true_iff in Hr as [Hr%bool_decide_eq_true | Hr%bool_decide_eq_true]; [done |].
    apply Hdeps. set_solver. }
  assert (next_batch td (dom td) ≡ₚ elements (dom td)) as Hperm
    by (rewrite next_batch_perm, Hround; apply set_iter_perm).
  exists (next_batch td (dom td)). split; [| done]. f_equal.
  assert (dom td ∖ list_to_set (next_batch td (dom td)) = ∅) as ->.
  { apply set_eq. intros tid. rewrite elem_of_difference, elem_of_list_to_set, Hperm, elem_of_elements.
    set_solver. }
  destruct n; simpl; [done | by rewrite decide_True].
Qed.

(** On an acyclic graph whose edges stay among the tasks, with unique ids,
    every dependency of a task is in a batch before the task's batch. *)
Theorem schedule_acyclic_topological ts (rank : string → nat) :
  NoDup (id <$> ts) → ranked (task_dict_of ts) rank → topological ts (_schedule_tasks ts).
Proof. apply schedule_tasks_topological. Qed.

End schedule_any.

Lemma schedule_forced_single_batch_witness :
  ∃ batch, @FastPlanner._schedule_tasks forward_runtime dict deadlocked_pair = [batch] ∧
           batch ≡ₚ elements (dom (task_dict_of deadlocked_pair)).
Proof.
  apply schedule_forced_single_batch; [done |].
  repeat constructor; apply (bool_decide_unpack _); vm_compute; exact I.
Defined.

Lemma chain_ranked : ranked (task_dict_of chain_of_three) chain_rank.
Proof.
  intros tid t d Ht Hd. apply task_dict_of_Some in Ht as [Hin <-].
  unfold chain_of_three in Hin.
  rewrite !elem_of_cons in Hin. destruct Hin as [-> | [-> | [-> | []%elem_of_nil]]];
    simpl in Hd; try (by apply not_elem_of_empty in Hd);
    apply elem_of_singleton in Hd as ->;
    (split; [apply (bool_decide_unpack _); vm_compute; exact I | vm_compute; lia]).
Qed.

Lemma schedule_acyclic_topological_witness :
  topological chain_of_three (@FastPlanner._schedule_tasks forward_runtime dict chain_of_three).
Proof.
  apply (schedule_acyclic_topological chain_of_three chain_rank).
  - apply (bool_decide_unpack _). vm_compute. exact I.
  - apply chain_ranked.
Defined.

Example chain_batches :
  @FastPlanner._schedule_tasks forward_runtime dict chain_of_three = [["a"]; ["b"]; ["c"]].
Proof. vm_compute. reflexivity. Qed.

(** ** Depth of a schedule *)

Section schedule_depth.
Context {R : PyRuntime} {P : Type}.
Implicit Types (td : gmap string (Task P)) (rem : gset string).
Import FastPlanner.

(** A remaining task of lowest rank is in the next batch. *)
Lemma lowest_rank_in_batch td rank rem k tid :
  ranked td rank → rem ⊆ dom td → (∀ x, x ∈ rem → (k ≤ rank x)%nat) →
  tid ∈ rem → rank tid = k → tid ∈ next_batch td rem.
Proof.
  intros Hrk Hsub Hlow Hin Hk. rewrite next_batch_perm. unfold round_ready.
  assert (is_ready td (dom td ∖ rem) tid = true) as Hready.
  { unfold is_ready. assert (is_Some (td !! tid)) as [t Ht] by (apply elem_of_dom; set_solver).
    rewrite Ht. apply orb_true_iff. right. apply bool_decide_eq_true. intros d Hd.
    destruct (Hrk tid t d Ht Hd) as [Hdom Hlt]. apply elem_of_difference. split; [done |].
    intros Hdr. specialize (Hlow d Hdr). lia. }
  destruct (List.filter _ _) eqn:E.
  - by apply elem_of_set_iter.
  - rewrite <- E. apply elem_of_filter_bool. split; [done | by apply elem_of_set_iter].
Qed.

Lemma schedule_loop_depth fuel td rank rem k n :
  ranked td rank → (∀ x, x ∈ dom td → (rank x < n)%nat) →
  rem ⊆ dom td → (∀ x, x ∈ rem → (k ≤ rank x)%nat) →
  (length (schedule_loop fuel td rem) ≤ n - k)%nat.
Proof.
  intros Hrk Hn. revert rem k. induction fuel as [|fuel IH]; intros rem k Hsub Hlow; simpl.
  - lia.
  - case_decide as Hrem; simpl; [lia |].
    assert (∃ x, x ∈ rem) as [x Hx] by (by apply set_choose_L).
    pose proof (Hlow x Hx). assert (rank x < n)%nat by (apply Hn; set_solver).
    specialize (IH (rem ∖ list_to_set (next_batch td rem)) (S k)).
    assert (length (schedule_loop fuel td (rem ∖ list_to_set (next_batch td rem))) ≤ n - S k)%nat;
      [| lia].
    apply IH; [set_solver |].
    intros y [Hy Hnb]%elem_of_difference.
    destruct (decide (rank y = k)) as [Hyk | Hyk].
    + exfalso. apply Hnb, elem_of_list_to_set.
      by apply (lowest_rank_in_batch td rank rem k).
    + specialize (Hlow y Hy). lia.
Qed.

Lemma schedule_tasks_depth (ts : list (Task P)) rank n :
  ranked (task_dict_of ts) rank → (∀ x, x ∈ dom (task_dict_of ts) → (rank x < n)%nat) →
  (length (_schedule_tasks ts) ≤ n)%nat.
Proof.
  intros Hrk Hn. unfold _schedule_tasks. destruct ts as [|t0 ts0]; [simpl; lia |].
  pose proof (schedule_loop_depth (size (dom (task_dict_of (t0 :: ts0))))
                (task_dict_of (t0 :: ts0)) rank (dom (task_dict_of (t0 :: ts0))) 0 n Hrk Hn)
    as Hdepth.
  assert (∀ x : string, x ∈ dom (task_dict_of (t0 :: ts0)) → (0 ≤ rank x)%nat) as Hlow
    by (intros; lia).
  specialize (Hdepth (reflexivity _) Hlow). lia.
Qed.

Lemma schedule_tasks_first_batch (ts : list (Task P)) rank tid :
  ranked (task_dict_of ts) rank → tid ∈ dom (task_dict_of ts) → rank tid = 0%nat →
  in_batch (_schedule_tasks ts) 0 tid.
Proof.
  intros Hrk Hdom Hzero. unfold _schedule_tasks.
  destruct ts as [|t0 ts0]; [rewrite task_dict_of_dom in Hdom; set_solver |].
  set (td := task_dict_of (t0 :: ts0)) in *.
  destruct (size (dom td)) as [|n] eqn:Hsz.
  { apply size_empty_inv, leibniz_equiv in Hsz. rewrite Hsz in Hdom. set_solver. }
  simpl. rewrite decide_False by set_solver.
  exists (next_batch td (dom td)). split; [done |].
  apply (lowest_rank_in_batch td rank (dom td) 0); try done. intros; lia.
Qed.

End schedule_depth.

Section plan_depth.
Context {L : TextLib} {R : PyRuntime}.
Import FastPlanner.

(** A plan that [plan] returns has at most two batches, and every task
    that is not a DATA_ANALYSIS task is in the first. *)
Theorem plan_at_most_two_batches (start_time end_time : Z) (q : string) (ctx : Context)
    (r : PlanRun) :
  plan start_time end_time q ctx = Some r →
  (length (parallel_batches (returned r)) ≤ 2)%nat ∧
  Forall (λ t, intent t = DATA_ANALYSIS ∨ in_batch (parallel_batches (returned r)) 0 (id t))
         (tasks (returned r)).
Proof.
  intros (intents & total & _ & _ & ->)%plan_inv. simpl.
  set (ts := _analyze_dependencies (_decompose_tasks q intents ctx)).
  pose proof (planned_tasks_NoDup q intents ctx) as Hnd. fold ts in Hnd.
  pose proof (file_deps_only_ranked ts Hnd (planned_tasks_shape q _ ctx)) as Hrk.
  split.
  - apply (schedule_tasks_depth ts (analysis_rank (task_dict_of ts))); [done |].
    intros x _. unfold analysis_rank. repeat case_match; lia.
  - apply Forall_forall. intros t Ht.
    destruct (decide (intent t = DATA_ANALYSIS)) as [| Hnda]; [by left | right].
    apply (schedule_tasks_first_batch ts (analysis_rank (task_dict_of ts))); [done | |].
    + rewrite task_dict_of_dom. apply elem_of_list_to_set, list_elem_of_fmap. eauto.
    + unfold analysis_rank. rewrite (task_dict_of_lookup ts t Hnd Ht).
      by rewrite bool_decide_eq_false_2.
Qed.

End plan_depth.

Lemma plan_at_most_two_batches_witness :
  ∃ r, @FastPlanner.plan py_text forward_runtime 0 0 csv_request csv_context = Some r ∧
       (length (parallel_batches (FastPlanner.returned r)) ≤ 2)%nat ∧
       Forall (λ t, intent t = DATA_ANALYSIS ∨
                    in_batch (parallel_batches (FastPlanner.returned r)) 0 (id t))
              (tasks (FastPlanner.returned r)).
Proof.
  destruct (@FastPlanner.plan py_text forward_runtime 0 0 csv_request csv_context)
    as [r|] eqn:Hplan.
  - exists r. split; [reflexivity |].
    exact (@plan_at_most_two_batches py_text forward_runtime 0 0
             csv_request csv_context r Hplan).
  - vm_compute in Hplan. discriminate Hplan.
Defined.

(** ** When the estimate is defined *)

Section estimate.
Context {P : Type}.
Implicit Types (ts : list (Task P)) (td : gmap string (Task P)).
Import FastPlanner.

Lemma batch_time_Some_inv td b m :
  batch_time td b = Some m → b ≠ [] ∧ ∀ tid, tid ∈ b → tid ∈ dom td.
Proof.
  unfold batch_time. intros Hm.
  destruct (mapM _ b) as [times|] eqn:Htimes; [| done]. simpl in Hm.
  split.
  - intros ->. cbn in Htimes. injection Htimes as <-. done.
  - intros tid Hin. assert (is_Some (mapM (λ tid, estimated_time_ms <$> td !! tid) b)) as Hs
      by (by rewrite Htimes).
    apply mapM_is_Some_1 in Hs. rewrite Forall_forall in Hs. specialize (Hs tid Hin).
    simpl in Hs. apply elem_of_dom. destruct (td !! tid); [by eexists | by destruct Hs].
Qed.

Lemma estimate_fold_None td batches :
  foldl (λ total_ms batch,
           total ← total_ms; batch_time_ ← batch_time td batch; Some (total + batch_time_))
        None batches = None.
Proof. induction batches; simpl; done. Qed.

(** The estimate is defined exactly when no batch is empty and every id of
    the batches is the id of a task; otherwise Python raises ([max] of an
    empty sequence, or a missing key). *)
Theorem estimate_total_time_defined batches ts :
  is_Some (_estimate_total_time batches ts) ↔
  Forall (λ b, b ≠ [] ∧ Forall (λ tid, tid ∈ (id <$> ts)) b) batches.
Proof.
  unfold _estimate_total_time. generalize 0 as z.
  induction batches as [|b batches IH]; intros z; simpl.
  - split; [constructor | by eexists].
  - destruct (batch_time (task_dict_of ts) b) as [m|] eqn:Hm; simpl.
    + rewrite IH. apply batch_time_Some_inv in Hm as [Hne Hdom].
      split; [| by intros [_ ?]%Forall_cons].
      intros Hrest. constructor; [| done]. split; [done |].
      apply Forall_forall. intros tid Hin. apply Hdom in Hin.
      rewrite task_dict_of_dom in Hin. by apply elem_of_list_to_set in Hin.
    + rewrite estimate_fold_None. split; [by intros [] |].
      intros [[Hne Hids] _]%Forall_cons. exfalso.
      destruct (batch_time_is_Some (task_dict_of ts) b Hne) as [m' Hm']; [| congruence].
      intros tid Hin. rewrite Forall_forall in Hids.
      rewrite task_dict_of_dom. apply elem_of_list_to_set. auto.
Qed.

End estimate.

(** ** Classification *)

Section classify.
Context {L : TextLib}.
Import FastPlanner.

Lemma scan_uploaded_cases ql files :
  scan_uploaded ql [] files = [] ∨ scan_uploaded ql [] files = [FILE_OP].
Proof.
  induction files as [|f files IH]; simpl; [by left |].
  repeat case_match; auto.
Qed.

Lemma match_table_hits ql (table : list (Intent * list regex)) detected :
  ∃ hits,
    foldl (λ acc '(intent, patterns),
             if existsb (λ pattern, bool_decide (is_Some (re_search pattern ql))) patterns
             then acc ++ [intent] else acc)
          detected table = detected ++ hits ∧
    hits `sublist_of` (fst <$> table).
Proof.
  revert detected. induction table as [|[i ps] table IH]; intros detected; simpl.
  - exists []. by rewrite app_nil_r.
  - destruct (existsb _ ps).
    + destruct (IH (detected ++ [i])) as (hits & -> & Hsub).
      exists (i :: hits). rewrite <- app_assoc. split; [done | by constructor].
    + destruct (IH detected) as (hits & -> & Hsub).
      exists hits. split; [done | by constructor].
Qed.

Lemma list_remove_first_app x l1 l2 :
  x ∉ l1 → list_remove_first x (l1 ++ l2) = l1 ++ list_remove_first x l2.
Proof.
  induction l1 as [|y l1 IH]; simpl; [done |].
  intros [Hne Hnin]%not_elem_of_cons. rewrite decide_False by done. by rewrite IH.
Qed.

Lemma list_remove_first_NoDup x l : NoDup l → x ∉ list_remove_first x l.
Proof.
  induction 1 as [|y l Hy Hl IH]; simpl; [apply not_elem_of_nil |].
  case_decide as Heq; [by subst |]. apply not_elem_of_cons. split; [done | apply IH].
Qed.

Lemma list_remove_first_subseteq x y l : y ∈ list_remove_first x l → y ∈ l.
Proof.
  induction l as [|z l IH]; simpl; [done |].
  case_decide; [set_solver |]. rewrite !elem_of_cons. intros [-> | ?]; auto.
Qed.

(** The list of intents that [_classify_intent] returns is never empty
    and never holds MULTI_STEP, and SIMPLE_QA is only ever there alone. *)
Theorem classify_intent_shape (q : string) (ctx : Context) (intents : list Intent) :
  _classify_intent q ctx = Some intents →
  intents ≠ [] ∧
  (MULTI_STEP ∉ intents) ∧
  (intents = [SIMPLE_QA] ∨ (SIMPLE_QA ∉ intents)).
Proof.
  unfold _classify_intent. destruct (continuation_tools _ _); simpl; [| done].
  intros [= <-]. unfold match_patterns.
  destruct (match_table_hits (str_lower q) intent_patterns
              (scan_uploaded (str_lower q) [] (uploaded_files ctx))) as (hits & -> & Hsub).
  set (scan := scan_uploaded (str_lower q) [] (uploaded_files ctx)).
  assert (NoDup hits) as Hnd.
  { eapply sublist_NoDup; [| exact Hsub]. apply (bool_decide_unpack _). vm_compute. exact I. }
  assert (SIMPLE_QA ∉ hits) as Hqa.
  { intros Hin. eapply elem_of_sublist in Hin; [| exact Hsub].
    revert Hin. apply (bool_decide_unpack _). vm_compute. exact I. }
  assert ((MULTI_STEP ∉ scan) ∧ (SIMPLE_QA ∉ scan)) as [Hms Hqs].
  { unfold scan. destruct (scan_uploaded_cases (str_lower q) (uploaded_files ctx)) as [-> | ->];
      split; set_solver. }
  set (after := if bool_decide (MULTI_STEP ∈ scan ++ hits)
                then list_remove_first MULTI_STEP (scan ++ hits) else scan ++ hits).
  assert ((MULTI_STEP ∉ after) ∧ (SIMPLE_QA ∉ after)) as [Hm Hs].
  { unfold after. case_bool_decide as Hin.
    - rewrite list_remove_first_app by done. split.
      + apply not_elem_of_app. split; [done | by apply list_remove_first_NoDup].
      + intros [? | ?%list_remove_first_subseteq]%elem_of_app; done.
    - split; [done |]. apply not_elem_of_app. done. }
  destruct after as [|i after']; [split_and!; [done | set_solver | by left] |].
  split_and!; [done | done | by right].
Qed.

(** ** Decomposition *)

Lemma vision_tasks_shape q k imgs :
  Forall2 (λ img t, tool t = "vision_analysis" ∧ intent t = FILE_OP ∧
                    params t !! "image_path" = Some (VStr img) ∧
                    priority t = 1 ∧ estimated_time_ms t = 8000)
          imgs (vision_tasks q k imgs).
Proof.
  revert k. induction imgs as [|img imgs IH]; intros k; simpl; [constructor |].
  constructor; [| apply IH].
  by split_and!.
Qed.

Lemma intent_tasks_shape q ctx hi k intents :
  Forall (λ t : Task dict,
            intent_to_tool (intent t) = Some (tool t) ∧
            priority t = _get_priority (intent t) ∧
            estimated_time_ms t = _estimate_task_time (tool t) ∧
            (hi = false ∨ intent t ≠ FILE_OP))
         (intent_tasks q ctx hi k intents).
Proof.
  revert k. induction intents as [|i intents IH]; intros k; simpl; [constructor |].
  case_bool_decide as Hqa; [apply IH |].
  destruct (bool_decide (i = FILE_OP) && hi) eqn:Hskip; [apply IH |].
  destruct (intent_to_tool i) as [tool_name|] eqn:Htool; [| apply IH].
  constructor; [| apply IH]. simpl. split_and!; try done.
  apply andb_false_iff in Hskip as [Hi%bool_decide_eq_false | ->]; auto.
Qed.

(** The tasks of a decomposition are named [task_0], [task_1], ... in
    order. First comes one [vision_analysis] task per uploaded image, in
    upload order; every task after them runs the tool mapped to its intent
    with that intent's priority and the tool's estimate, and none of them
    is a FILE_OP task when an image was uploaded. *)
Theorem decompose_tasks_shape (q : string) (intents : list Intent) (ctx : Context) :
  let images := filter (λ f, is_image f = true) (uploaded_files ctx) in
  ∃ vision rest,
    _decompose_tasks q intents ctx = vision ++ rest ∧
    id <$> (vision ++ rest) = task_name <$> seq 0 (length (vision ++ rest)) ∧
    Forall2 (λ img t, tool t = "vision_analysis" ∧ intent t = FILE_OP ∧
                      params t !! "image_path" = Some (VStr img) ∧
                      priority t = 1 ∧ estimated_time_ms t = 8000)
            images vision ∧
    Forall (λ t, intent_to_tool (intent t) = Some (tool t) ∧
                 priority t = _get_priority (intent t) ∧
                 estimated_time_ms t = _estimate_task_time (tool t) ∧
                 (images = [] ∨ intent t ≠ FILE_OP))
           rest.
Proof.
  intros images. eexists _, _. split; [reflexivity |]. split_and!.
  - apply (decompose_ids q intents ctx).
  - apply vision_tasks_shape.
  - eapply Forall_impl; [apply intent_tasks_shape |]. simpl.
    intros t (? & ? & ? & Hhi). split_and!; try done.
    destruct Hhi as [Hhi%bool_decide_eq_false | ?]; [left | by right].
    fold images in Hhi. by apply dec_stable in Hhi.
Qed.

(** ** File parameters *)

(** [_extract_file_params] always gives an operation among [read],
    [write], [list] and a non-empty path. [list] comes with the default
    path only; a non-empty first uploaded file is the path, and is then
    read or written. *)
Theorem extract_file_params_shape (q : string) (ctx : Context) :
  ∃ operation path,
    _extract_file_params q ctx
    = <["operation" := VStr operation]> (<["file_path" := VStr path]> ∅) ∧
    path ≠ EmptyString ∧
    ((operation = "list" ∧ path = "data/temp.txt") ∨ operation = "read" ∨ operation = "write") ∧
    match head (uploaded_files ctx) with
    | Some f => f = EmptyString ∨ (path = f ∧ operation ≠ "list")
    | None => True
    end.
Proof.
  unfold _extract_file_params.
  destruct (head (uploaded_files ctx)) as [f|] eqn:Hhead; simpl.
  - destruct f as [|c f'] eqn:Hf.
    + unfold truthy. simpl.
      destruct (re_search file_pattern q) as [[g gs]|]; simpl.
      * eexists _, _. split; [reflexivity |]. split_and!; [done | | by left].
        repeat case_match; auto.
      * eexists _, _. split; [reflexivity |]. split_and!; [done | | by left].
        repeat case_match; auto.
    + unfold truthy. simpl. eexists _, _. split; [reflexivity |]. split_and!; [done | |].
      * repeat case_match; auto.
      * right. split; [done |]. repeat case_match; done.
  - destruct (re_search file_pattern q) as [[g gs]|]; simpl.
    + eexists _, _. split; [reflexivity |]. split_and!; [done | | done].
      repeat case_match; auto.
    + eexists _, _. split; [reflexivity |]. split_and!; [done | | done].
      repeat case_match; auto.
Qed.

End classify.

Lemma classify_intent_shape_witness :
  ∃ intents,
    @FastPlanner._classify_intent py_text csv_request csv_context = Some intents ∧
    intents ≠ [] ∧
    (MULTI_STEP ∉ intents) ∧
    (intents = [SIMPLE_QA] ∨ (SIMPLE_QA ∉ intents)).
Proof.
  destruct (@FastPlanner._classify_intent py_text csv_request csv_context)
    as [intents|] eqn:Hintents.
  - exists intents. split; [reflexivity |].
    exact (@classify_intent_shape py_text csv_request csv_context intents Hintents).
  - vm_compute in Hintents. discriminate Hintents.
Defined.

(** * Further properties of the executor *)

(** ** Parameter resolution as a function of the entries *)

Section resolution.
Context {F : FileSys} {R : PyRuntime}.
Import ParallelExecutor.

Lemma resolve_image_path_insert h l d :
  resolve_image_path l (<[l := d]> h) = (tt, <[l := with_path "image_path" d]> h).
Proof.
  unfold resolve_image_path, with_path, normalize_path, dict_get. munfold.
  rewrite lookup_insert_eq. simpl.
  destruct (d !! "image_path") as [[]|]; try done.
  unfold dict_set. by rewrite alter_insert_eq.
Qed.

Lemma resolve_file_path_insert h l d :
  resolve_file_path l (<[l := d]> h) = (tt, <[l := with_path "file_path" d]> h).
Proof.
  unfold resolve_file_path, with_path, normalize_path, dict_get. munfold.
  rewrite lookup_insert_eq. simpl.
  destruct (d !! "file_path") as [[]|]; try done.
  destruct (path_is_absolute _); unfold dict_set; by rewrite alter_insert_eq.
Qed.

Lemma inject_deps_insert task prev h l d d0 deps :
  l ≠ params task → h !! params task = Some d0 →
  inject_deps task prev l deps (<[l := d]> h)
  = (tt, <[l := foldl (inject_step task prev (d0 !! "operation")) d deps]> h).
Proof.
  intros Hne Hd0. revert d. induction deps as [|dep deps IH]; intros d; simpl; [done |].
  munfold. rewrite inject_one_step. unfold entry.
  rewrite lookup_insert_ne, Hd0 by done. simpl. unfold inject_step at 2.
  destruct (succeeded prev dep), (inject_key (intent task) (d0 !! "operation"));
    try apply IH.
  rewrite alter_insert_eq. apply IH.
Qed.

(** Resolution allocates one dictionary, whose entries are
    [resolved_dict], and returns its reference. *)
Lemma resolve_params_alloc task prev h d0 :
  h !! params task = Some d0 →
  _resolve_params task prev h
  = (fresh (dom h), <[fresh (dom h) := resolved_dict task prev d0]> h).
Proof.
  intros Hd0. unfold _resolve_params, dict_copy. munfold. rewrite Hd0. simpl.
  assert (fresh (dom h) ≠ params task) as Hne.
  { intros Heq. apply (is_fresh (dom h)). rewrite Heq. apply elem_of_dom. by eexists. }
  rewrite resolve_image_path_insert, resolve_file_path_insert.
  by rewrite (inject_deps_insert task prev h _ _ d0).
Qed.

Lemma with_path_other key k d : k ≠ key → with_path key d !! k = d !! k.
Proof.
  intros Hne. unfold with_path. destruct (d !! key) as [[]|]; try done.
  by rewrite lookup_insert_ne.
Qed.

Lemma inject_fold_other task prev operation d deps k :
  inject_key (intent task) operation ≠ Some k →
  foldl (inject_step task prev operation) d deps !! k = d !! k.
Proof.
  intros Hk. revert d. induction deps as [|dep deps IH]; intros d; simpl; [done |].
  rewrite IH. unfold inject_step.
  destruct (succeeded prev dep), (inject_key _ _) as [k'|]; try done.
  rewrite lookup_insert_ne; [done | congruence].
Qed.

Lemma inject_fold_no_success task prev operation d deps :
  Forall (λ dep, succeeded prev dep = None) deps →
  foldl (inject_step task prev operation) d deps = d.
Proof.
  revert d. induction deps as [|dep deps IH]; intros d Hall; simpl; [done |].
  apply Forall_cons in Hall as [Hdep Hall]. unfold inject_step at 2. rewrite Hdep. by apply IH.
Qed.

(** Resolution writes at most three keys: [image_path], [file_path], and
    the injection key of the task. Every other entry of the resolved
    dictionary is the entry of [task.params]. *)
Theorem resolve_params_other_keys (task : Task loc) (prev : odict ToolResult) (h : heap)
    (k : string) :
  is_Some (h !! params task) →
  k ≠ "image_path" → k ≠ "file_path" →
  inject_key (intent task) (entry h (params task) "operation") ≠ Some k →
  entry (_resolve_params task prev h).2 (_resolve_params task prev h).1 k
  = entry h (params task) k.
Proof.
  intros [d0 Hd0] Hi Hf Hk. rewrite (resolve_params_alloc task prev h d0 Hd0). simpl.
  unfold entry in *. rewrite lookup_insert_eq, Hd0 in *. simpl in *.
  unfold resolved_dict. rewrite inject_fold_other by done.
  by rewrite !with_path_other.
Qed.

(** A task none of whose dependencies has a successful result (they
    failed, or have no result) still gets its parameters resolved, with
    nothing injected: apart from the two path keys the entries are those of
    [task.params]. *)
Theorem resolve_params_without_success (task : Task loc) (prev : odict ToolResult)
    (h : heap) (k : string) :
  is_Some (h !! params task) →
  (∀ dep, dep ∈ dependencies task → succeeded prev dep = None) →
  k ≠ "image_path" → k ≠ "file_path" →
  entry (_resolve_params task prev h).2 (_resolve_params task prev h).1 k
  = entry h (params task) k.
Proof.
  intros [d0 Hd0] Hnone Hi Hf. rewrite (resolve_params_alloc task prev h d0 Hd0). simpl.
  unfold entry. rewrite lookup_insert_eq, Hd0. simpl.
  unfold resolved_dict. rewrite inject_fold_no_success.
  - by rewrite !with_path_other.
  - apply Forall_forall. intros dep Hin. apply Hnone. by apply elem_of_set_iter.
Qed.

(** The result of a task depends on the heap through the entries of its
    own [params] only. *)
Lemma execute_task_result_local registry task prev h h' d0 :
  h !! params task = Some d0 → h' !! params task = Some d0 →
  (_execute_task registry task prev h').1 = (_execute_task registry task prev h).1.
Proof.
  intros Hd0 Hd0'. unfold _execute_task. destruct (registry !! tool task); [| done].
  munfold. rewrite (resolve_params_alloc task prev h d0 Hd0).
  rewrite (resolve_params_alloc task prev h' d0 Hd0').
  unfold dict_read. rewrite !lookup_insert_eq. simpl. by destruct (ended _).
Qed.

End resolution.

Lemma resolve_params_other_keys_witness :
  entry (@ParallelExecutor._resolve_params all_exist_fs forward_runtime
           write_after_a hello_results write_heap).2
        (@ParallelExecutor._resolve_params all_exist_fs forward_runtime
           write_after_a hello_results write_heap).1 "operation"
  = entry write_heap (params write_after_a) "operation".
Proof.
  apply (@resolve_params_other_keys all_exist_fs forward_runtime).
  - apply (bool_decide_unpack _). vm_compute. exact I.
  - done.
  - done.
  - vm_compute. discriminate.
Defined.

Lemma resolve_params_without_success_witness :
  entry (@ParallelExecutor._resolve_params all_exist_fs forward_runtime
           after_failed_read failed_read_results failed_read_heap).2
        (@ParallelExecutor._resolve_params all_exist_fs forward_runtime
           after_failed_read failed_read_results failed_read_heap).1 "data"
  = entry failed_read_heap (params after_failed_read) "data".
Proof.
  apply (@resolve_params_without_success all_exist_fs forward_runtime).
  - apply (bool_decide_unpack _). vm_compute. exact I.
  - intros dep Hin. simpl in Hin. apply elem_of_singleton in Hin as ->. reflexivity.
  - done.
  - done.
Defined.

(** ** Ordered dictionaries *)

Section odict.
Context {V : Type}.
Implicit Types (d : odict V).

Lemma od_get_set_eq k v d : od_get k (od_set k v d) = Some v.
Proof.
  induction d as [|[k' v'] d IH]; simpl.
  - by rewrite String.eqb_refl.
  - destruct (String.eqb k k') eqn:E; simpl; rewrite ?String.eqb_refl, ?E; done.
Qed.

Lemma od_get_set_ne k k' v d : k ≠ k' → od_get k' (od_set k v d) = od_get k' d.
Proof.
  intros Hne. induction d as [|[k'' v''] d IH]; simpl.
  - by rewrite (proj2 (String.eqb_neq k' k)).
  - destruct (String.eqb k k'') eqn:E; simpl.
    + apply String.eqb_eq in E as <-. by rewrite !(proj2 (String.eqb_neq k' k)).
    + by rewrite IH.
Qed.

Lemma elem_of_od_keys_set k k' v d :
  k' ∈ od_keys (od_set k v d) ↔ k' = k ∨ k' ∈ od_keys d.
Proof.
  unfold od_keys. induction d as [|[k'' v''] d IH]; simpl.
  - set_solver.
  - destruct (String.eqb k k'') eqn:E; simpl.
    + apply String.eqb_eq in E as <-. set_solver.
    + rewrite !elem_of_cons, IH. tauto.
Qed.

Lemma od_set_NoDup k v d : NoDup (od_keys d) → NoDup (od_keys (od_set k v d)).
Proof.
  unfold od_keys. induction d as [|[k'' v''] d IH]; simpl; intros Hnd.
  - repeat constructor. set_solver.
  - apply NoDup_cons in Hnd as [Hnin Hnd].
    destruct (String.eqb k k'') eqn:E; simpl.
    + apply String.eqb_eq in E as <-. by constructor.
    + apply String.eqb_neq in E. constructor; [| by apply IH].
      intros Hin. apply (elem_of_od_keys_set k k'' v d) in Hin as [-> | Hin]; done.
Qed.

Lemma od_get_is_Some k d : is_Some (od_get k d) ↔ k ∈ od_keys d.
Proof.
  unfold od_keys. induction d as [|[k' v'] d IH]; simpl.
  - split; [by intros [] | by intros ?%elem_of_nil].
  - destruct (String.eqb k k') eqn:E.
    + apply String.eqb_eq in E as <-. split; [set_solver | by eexists].
    + apply String.eqb_neq in E. rewrite IH. set_solver.
Qed.

Lemma elem_of_od_keys_update d d2 k :
  k ∈ od_keys (od_update d d2) ↔ k ∈ od_keys d ∨ k ∈ od_keys d2.
Proof.
  unfold od_update. revert d. induction d2 as [|[k2 v2] d2 IH]; intros d; simpl.
  - change (od_keys (@nil (string * V))) with (@nil string). set_solver.
  - rewrite IH, elem_of_od_keys_set.
    change (od_keys ((k2, v2) :: d2)) with (k2 :: od_keys d2). set_solver.
Qed.

Lemma od_update_NoDup d d2 : NoDup (od_keys d) → NoDup (od_keys (od_update d d2)).
Proof.
  unfold od_update. revert d. induction d2 as [|[k2 v2] d2 IH]; intros d Hnd; simpl; [done |].
  by apply IH, od_set_NoDup.
Qed.

End odict.

(** ** Batches *)

Section batches.
Context {F : FileSys} {R : PyRuntime}.
Import ParallelExecutor.

Lemma collect_done self results task result :
  collect self results (task, inl result) = od_set (id task) result results.
Proof. reflexivity. Qed.

Lemma elem_of_collect_keys self results future k :
  k ∈ od_keys (collect self results future) ↔ k = id future.1 ∨ k ∈ od_keys results.
Proof.
  destruct future as [task stored]. unfold collect. simpl.
  destruct (future_result _ _ _) as [|[|]]; apply elem_of_od_keys_set.
Qed.

Lemma collect_NoDup self results future :
  NoDup (od_keys results) → NoDup (od_keys (collect self results future)).
Proof.
  destruct future as [task stored]. unfold collect.
  destruct (future_result _ _ _) as [|[|]]; apply od_set_NoDup.
Qed.

Lemma collected_keys self (futures : list (Task loc * (ToolResult + exc))) results k :
  k ∈ od_keys (foldl (collect self) results futures) ↔
  k ∈ od_keys results ∨ k ∈ (id ∘ fst <$> futures).
Proof.
  revert results. induction futures as [|fu futures IH]; intros results; simpl.
  - set_solver.
  - rewrite IH, elem_of_collect_keys, elem_of_cons. tauto.
Qed.

Lemma collected_NoDup self (futures : list (Task loc * (ToolResult + exc))) results :
  NoDup (od_keys results) → NoDup (od_keys (foldl (collect self) results futures)).
Proof.
  revert results. induction futures as [|fu futures IH]; intros results Hnd; simpl; [done |].
  by apply IH, collect_NoDup.
Qed.

Lemma collected_other self (futures : list (Task loc * (ToolResult + exc))) results k :
  k ∉ (id ∘ fst <$> futures) →
  od_get k (foldl (collect self) results futures) = od_get k results.
Proof.
  revert results. induction futures as [|[task stored] futures IH]; intros results Hk; simpl;
    [done |].
  rewrite fmap_cons, not_elem_of_cons in Hk. destruct Hk as [Hne Hk]. simpl in Hne.
  rewrite IH by done. unfold collect.
  destruct (future_result _ _ _) as [|[|]]; by apply od_get_set_ne.
Qed.

Lemma collected_result self (futures : list (Task loc * (ToolResult + exc))) results task result :
  NoDup (id ∘ fst <$> futures) →
  (task, inl result) ∈ futures →
  od_get (id task) (foldl (collect self) results futures) = Some result.
Proof.
  revert results.
  induction futures as [|fu futures IH]; intros results Hnd Hin; [by apply elem_of_nil in Hin |].
  rewrite fmap_cons in Hnd. apply NoDup_cons in Hnd as [Hfresh Hnd]. simpl.
  apply elem_of_cons in Hin as [<- | Hin].
  - rewrite collected_other by done. rewrite collect_done. apply od_get_set_eq.
  - by apply IH.
Qed.

Lemma submit_all_futures registry ts prev h h' :
  Forall (λ t, is_Some (h !! params t)) ts → preserves h h' →
  (submit_all registry ts prev h').1
  = (λ t, (t, inl (_execute_task registry t prev h).1)) <$> ts.
Proof.
  intros Hall. revert h'. induction ts as [|task ts IH]; intros h' Hp; simpl; [done |].
  apply Forall_cons in Hall as [[d0 Hd0] Hall]. munfold.
  pose proof (execute_task_preserves registry task prev h h' Hp) as Hp'.
  assert (h' !! params task = Some d0) as Hd0' by (rewrite Hp; [done | by eexists]).
  pose proof (execute_task_result_local registry task prev h h' d0 Hd0 Hd0') as Hres.
  destruct (_execute_task registry task prev h') as [r h''] eqn:E. simpl in *.
  specialize (IH Hall h'' Hp').
  destruct (submit_all registry ts prev h'') as [fs h3]. simpl in *. by rewrite IH, Hres.
Qed.

(** In a batch of tasks with distinct ids, the result recorded for a task
    is the result that task gives when executed alone against the results
    of the earlier batches: what its siblings return or raise, and the order
    in which the futures complete, do not matter. *)
Theorem execute_batch_isolated (self : Executor) (registry : gmap string tool_fn)
    (ts : list (Task loc)) (prev : odict ToolResult) (h : heap) (task : Task loc) :
  NoDup (id <$> ts) →
  Forall (λ t, is_Some (h !! params t)) ts → task ∈ ts →
  od_get (id task) (_execute_batch self registry ts prev h).1
  = Some (_execute_task registry task prev h).1.
Proof.
  intros Hnd Hall Hin. unfold _execute_batch. munfold.
  pose proof (submit_all_futures registry ts prev h h Hall (preserves_refl h)) as Hfut.
  destruct (submit_all registry ts prev h) as [futures h']. simpl in *. subst futures.
  apply collected_result.
  - rewrite (as_completed_perm _ _), <- list_fmap_compose.
    unfold compose. simpl. exact Hnd.
  - rewrite (as_completed_perm _ _). apply list_elem_of_fmap. eauto.
Qed.

(** The keys of a batch's results are the ids of its tasks. *)
Lemma execute_batch_keys self registry ts prev h k :
  k ∈ od_keys (_execute_batch self registry ts prev h).1 ↔ k ∈ (id <$> ts).
Proof.
  unfold _execute_batch. munfold.
  assert ((fst <$> (submit_all registry ts prev h).1) = ts) as Hfst.
  { revert h. induction ts as [|task ts IH]; intros h; simpl; [done |]. munfold.
    destruct (_execute_task registry task prev h) as [r h']. specialize (IH h').
    destruct (submit_all registry ts prev h') as [fs h''].
    change (task :: (fst <$> fs) = task :: ts). f_equal. exact IH. }
  destruct (submit_all registry ts prev h) as [futures h']. simpl in *.
  rewrite collected_keys, list_fmap_compose, (as_completed_perm _ _), Hfst.
  change (od_keys (@nil (string * ToolResult))) with (@nil string). set_solver.
Qed.

Lemma execute_batches_keys self registry ts batches results h k :
  k ∈ od_keys (execute_batches self registry ts batches results h).1 ↔
  k ∈ od_keys results ∨ ∃ t b, t ∈ ts ∧ b ∈ batches ∧ id t = k ∧ k ∈ b.
Proof.
  revert results h. induction batches as [|b batches IH]; intros results h; simpl.
  - split; [auto | intros [? | (? & ? & _ & []%elem_of_nil & _)]; done].
  - munfold.
    pose proof (execute_batch_keys self registry (filter (λ t, id t ∈ b) ts) results h) as Hb.
    destruct (_execute_batch self registry _ results h) as [br h']. simpl in Hb.
    rewrite IH, elem_of_od_keys_update, Hb, list_elem_of_fmap. split.
    + intros [[? | (t & -> & [Hin Ht]%list_elem_of_filter)] | (t & b' & ? & ? & ? & ?)].
      * by left.
      * right. exists t, b. set_solver.
      * right. exists t, b'. set_solver.
    + intros [? | (t & b' & Ht & [-> | Hb']%elem_of_cons & <- & Hin)].
      * by left; left.
      * left; right. exists t. split; [done |]. by apply list_elem_of_filter.
      * right. exists t, b'. done.
Qed.

Lemma execute_batches_NoDup self registry ts batches results h :
  NoDup (od_keys results) →
  NoDup (od_keys (execute_batches self registry ts batches results h).1).
Proof.
  revert results h. induction batches as [|b batches IH]; intros results h Hnd; simpl; [done |].
  munfold. destruct (_execute_batch self registry _ results h) as [br h'].
  by apply IH, od_update_NoDup.
Qed.

(** [execute] returns one result for every task of the plan whose id is
    named in a batch, whatever the tools do, and no result under any other
    key. *)
Theorem execute_results_keys (self : Executor) (registry : gmap string tool_fn)
    (plan : ExecutionPlan loc) (h : heap) :
  NoDup (od_keys (execute self registry plan h).1) ∧
  ∀ k, k ∈ od_keys (execute self registry plan h).1 ↔
       ∃ t b, t ∈ tasks plan ∧ b ∈ parallel_batches plan ∧ id t = k ∧ k ∈ b.
Proof.
  unfold execute. split.
  - apply execute_batches_NoDup. constructor.
  - intros k. rewrite execute_batches_keys.
    change (od_keys (@nil (string * ToolResult))) with (@nil string). set_solver.
Qed.

End batches.

Lemma execute_batch_isolated_witness :
  od_get "task_0"
    (@ParallelExecutor._execute_batch all_exist_fs backward_runtime
       ParallelExecutor.parallel_executor mixed_registry mixed_batch [] mixed_heap).1
  = Some (@ParallelExecutor._execute_task all_exist_fs backward_runtime
            mixed_registry (mkTask "task_0" SEARCH "intelligent_search" 1%positive ∅ 8 2000)
            [] mixed_heap).1.
Proof.
  apply (@execute_batch_isolated all_exist_fs backward_runtime
           ParallelExecutor.parallel_executor mixed_registry mixed_batch [] mixed_heap
           (mkTask "task_0" SEARCH "intelligent_search" 1%positive ∅ 8 2000)).
  - apply (bool_decide_unpack _). vm_compute. exact I.
  - repeat constructor; apply (bool_decide_unpack _); vm_compute; exact I.
  - unfold mixed_batch. apply elem_of_cons. by left.
Defined.

(** The batch of three: one success, one exception, one unknown tool. *)
Example mixed_batch_results :
  (λ r, (task_id r, success r, output r, error r)) <$>
    od_values (@ParallelExecutor._execute_batch all_exist_fs forward_runtime
                 ParallelExecutor.parallel_executor mixed_registry mixed_batch [] mixed_heap).1
  = [ ("task_0", true, VStr "found", None);
      ("task_1", false, VNone, Some "division by zero");
      ("task_2", false, VNone, Some "工具 file_scraper 未找到") ].
Proof. vm_compute. reflexivity. Qed.

(** ** The shape of results *)

Section result_shape.
Context {F : FileSys} {R : PyRuntime}.
Import ParallelExecutor.

Lemma od_set_Forall {V} (Q : string * V → Prop) k v (d : odict V) :
  Q (k, v) → Forall Q d → Forall Q (od_set k v d).
Proof.
  intros Hv. induction 1 as [|[k' v'] d Hx Hd IH]; simpl; [by repeat constructor |].
  destruct (String.eqb k k'); constructor; done.
Qed.

Lemma od_update_Forall {V} (Q : string * V → Prop) (d d2 : odict V) :
  Forall Q d → Forall Q d2 → Forall Q (od_update d d2).
Proof.
  unfold od_update. intros Hd Hd2. revert d Hd.
  induction Hd2 as [|[k v] d2 Hx Hd2 IH]; intros d Hd; simpl; [done |].
  by apply IH, od_set_Forall.
Qed.

Lemma execute_task_well_formed registry task prev h :
  well_formed_result (id task, (_execute_task registry task prev h).1).
Proof.
  unfold _execute_task, well_formed_result.
  destruct (registry !! tool task); [| simpl; by eauto].
  munfold. destruct (_resolve_params task prev h) as [l h']. unfold dict_read.
  destruct (ended _); simpl; eauto.
Qed.

Lemma submit_all_well_formed registry ts prev h :
  Forall (λ fu, match fu.2 with
                | inl r => well_formed_result (id fu.1, r)
                | inr _ => True
                end)
         (submit_all registry ts prev h).1.
Proof.
  revert h. induction ts as [|task ts IH]; intros h; simpl; [constructor |]. munfold.
  pose proof (execute_task_well_formed registry task prev h) as Hr.
  destruct (_execute_task registry task prev h) as [r h']. specialize (IH h').
  destruct (submit_all registry ts prev h') as [fs h'']. simpl in *. by constructor.
Qed.

Lemma collect_well_formed self results fu :
  match fu.2 with inl r => well_formed_result (id fu.1, r) | inr _ => True end →
  Forall well_formed_result results → Forall well_formed_result (collect self results fu).
Proof.
  destruct fu as [task stored]. simpl. intros Hr Hall. unfold collect.
  rewrite done_future_result.
  destruct stored as [r | e]; apply od_set_Forall; try done;
    unfold well_formed_result; simpl; eauto.
Qed.

Lemma execute_batch_well_formed self registry ts prev h :
  Forall well_formed_result (_execute_batch self registry ts prev h).1.
Proof.
  unfold _execute_batch. munfold.
  pose proof (submit_all_well_formed registry ts prev h) as Hf.
  destruct (submit_all registry ts prev h) as [futures h']. simpl in *.
  rewrite <- (as_completed_perm _ futures) in Hf.
  generalize dependent (as_completed futures). intros fs Hf.
  assert (Forall well_formed_result (@nil (string * ToolResult))) as Hacc by constructor.
  revert Hacc. generalize (@nil (string * ToolResult)) as acc.
  induction Hf as [|fu fs Hfu Hfs IH]; intros acc Hacc; simpl; [done |].
  by apply IH, collect_well_formed.
Qed.

(** Every entry of the map [execute] returns is filed under its own task
    id; a successful one has no error, a failed one has an error message and
    no output. *)
Theorem execute_results_well_formed (self : Executor) (registry : gmap string tool_fn)
    (plan : ExecutionPlan loc) (h : heap) :
  Forall well_formed_result (execute self registry plan h).1.
Proof.
  unfold execute.
  assert (Forall well_formed_result (@nil (string * ToolResult))) as Hacc by constructor.
  revert Hacc. generalize (@nil (string * ToolResult)) as acc. revert h.
  induction (parallel_batches plan) as [|b batches IH]; intros h acc Hacc; simpl; [done |].
  munfold.
  pose proof (execute_batch_well_formed self registry
                (filter (λ t, id t ∈ b) (tasks plan)) acc h) as Hb.
  destruct (_execute_batch self registry _ acc h) as [br h']. simpl in Hb.
  by apply IH, od_update_Forall.
Qed.

End result_shape.

(** * The registry *)

Section registry.
Import ToolRegistry.

Lemma od_keys_set_list {V} k v (d : odict V) :
  od_keys (od_set k v d)
  = if bool_decide (k ∈ od_keys d) then od_keys d else od_keys d ++ [k].
Proof.
  unfold od_keys. induction d as [|[k' v'] d IH]; [done |].
  change (od_set k v ((k', v') :: d))
    with (if String.eqb k k' then (k, v) :: d else (k', v') :: od_set k v d).
  destruct (String.eqb k k') eqn:E; rewrite !fmap_cons; simpl fst.
  - apply String.eqb_eq in E as <-. rewrite bool_decide_eq_true_2; [done | set_solver].
  - apply String.eqb_neq in E. rewrite IH.
    case_bool_decide as Hin.
    + rewrite bool_decide_eq_true_2; [done | set_solver].
    + rewrite bool_decide_eq_false_2; [done | set_solver].
Qed.

(** After [register(name, func, ...)], [get(name)] is [func], also when
    the name was registered before, and [get] of any other name is what it
    was. *)
Theorem registry_register_get (self : t) (name name' : string) (func : tool_fn)
    (descr : string) (auth : bool) :
  get (register self name func descr auth) name'
  = if String.eqb name name' then Some func else get self name'.
Proof.
  unfold get, register. destruct (String.eqb name name') eqn:E.
  - apply String.eqb_eq in E as <-. by rewrite od_get_set_eq.
  - apply String.eqb_neq in E. by rewrite od_get_set_ne.
Qed.

(** Names are listed once each, in the order of their first registration:
    registering a new name appends it, registering a known name leaves the
    listing as it is. [get] answers exactly for the listed names. *)
Theorem registry_list_available (self : t) (name : string) (func : tool_fn)
    (descr : string) (auth : bool) :
  list_available (register self name func descr auth)
  = (if bool_decide (name ∈ list_available self)
     then list_available self else list_available self ++ [name]) ∧
  (NoDup (list_available self) → NoDup (list_available (register self name func descr auth))) ∧
  ∀ name', is_Some (get self name') ↔ name' ∈ list_available self.
Proof.
  split_and!.
  - apply (od_keys_set_list name (mkEntry func descr auth) self).
  - apply (od_set_NoDup name (mkEntry func descr auth) self).
  - intros name'. rewrite <- (od_get_is_Some name' self). unfold get.
    destruct (od_get name' self) as [e|].
    + split; intros _; [exists e | exists (function e)]; done.
    + split; intros [? ?]; done.
Qed.

End registry.

(** * The transcript and the generator call *)

Lemma prefix_refl (s : string) : String.prefix s s = true.
Proof. induction s as [|c s IH]; simpl; [done |]. by destruct (Ascii.ascii_dec c c). Qed.

Lemma str_in_refl (s : string) : str_in s s = true.
Proof. apply str_in_prefix, prefix_refl. Qed.

Lemma prefix_app_l (x y b : string) :
  String.prefix x y = true → String.prefix x (y +:+ b) = true.
Proof.
  revert y. induction x as [|c x IH]; intros y Hp.
  - by destruct (y +:+ b).
  - destruct y as [|c' y]; [done |].
    change (String.prefix (String c x) (String c' (y +:+ b)) = true).
    simpl in *. destruct (Ascii.ascii_dec c c'); [by apply IH | done].
Qed.

Lemma str_in_app_l (x y b : string) : str_in x y = true → str_in x (y +:+ b) = true.
Proof.
  induction y as [|c y IH].
  - unfold str_in. rewrite orb_false_r. intros Hp. by apply str_in_prefix, prefix_app_l.
  - change (str_in x (String c y) = true → str_in x (String c (y +:+ b)) = true).
    unfold str_in; fold str_in. intros [Hp | Hin]%orb_true_iff.
    + apply orb_true_iff. left. by apply (prefix_app_l x (String c y) b).
    + apply orb_true_iff. right. by apply IH.
Qed.

Lemma str_in_join_lines (x y : string) (ls : list string) :
  str_in x y = true → y ∈ ls → str_in x (ResultPolisher.join_lines ls) = true.
Proof.
  intros Hxy. induction ls as [|z ls IH]; [by intros ?%elem_of_nil |].
  intros [-> | Hin]%elem_of_cons.
  - destruct ls; [done |].
    change (str_in x (z +:+ nl +:+ ResultPolisher.join_lines (s :: ls)) = true).
    by apply str_in_app_l.
  - destruct ls as [|z' ls]; [by apply elem_of_nil in Hin |].
    change (str_in x (z +:+ nl +:+ ResultPolisher.join_lines (z' :: ls)) = true).
    do 2 apply str_in_append_r. by apply IH.
Qed.

Lemma py_len_app (a b : string) : py_len (a +:+ b) = (py_len a + py_len b)%nat.
Proof.
  induction a as [|c a IH]; [done |].
  change (py_len (String c (a +:+ b)) = (py_len (String c a) + py_len b)%nat).
  simpl. rewrite IH. lia.
Qed.

Lemma py_len_take (n : nat) (s : string) : (py_len (py_take n s) ≤ n)%nat.
Proof.
  revert n. induction s as [|c s IH]; intros n; simpl; [lia |].
  destruct (cp_start c) eqn:E.
  - destruct n; simpl; [lia |]. rewrite E. specialize (IH n). lia.
  - simpl. rewrite E. apply IH.
Qed.

Lemma py_take_prefix (n : nat) (s : string) : String.prefix (py_take n s) s = true.
Proof.
  revert n. induction s as [|c s IH]; intros n; simpl; [done |].
  destruct (cp_start c); [destruct n; simpl; [done |] |]; simpl;
    destruct (Ascii.ascii_dec c c); try done; apply IH.
Qed.

Section transcript.
Import PolishCall.

(** A capped output has at most [n + 8] code points and begins with the
    first [n] code points of the output. *)
Theorem capped_output_bound (n : nat) (output : string) :
  (py_len (capped n output) ≤ n + 8)%nat ∧
  String.prefix (py_take n output) (capped n output) = true.
Proof.
  unfold capped. destruct (n <? py_len output)%nat eqn:E.
  - split; [| apply prefix_append].
    rewrite py_len_app. pose proof (py_len_take n output).
    assert (py_len "...(已截断)" = 8%nat) as -> by (vm_compute; reflexivity). lia.
  - apply Nat.ltb_ge in E. split; [lia | apply py_take_prefix].
Qed.









Lemma history_entries_shape msgs ms :
  history_entries msgs = inl ms → (length ms ≤ length msgs)%nat ∧ forallb is_turn ms = true.
Proof.
  revert ms. induction msgs as [|msg msgs IH]; intros ms; simpl.
  - by intros [= <-].
  - destruct (history_entry msg) as [m|] eqn:Hm; [| done].
    destruct (history_entries msgs) as [ms'|]; [| done].
    destruct (IH ms' eq_refl) as [Hlen Hturn]. intros [= <-].
    destruct m as [x|]; simpl; [| split; [lia | done]].
    split; [lia |]. rewrite Hturn, andb_true_r.
    unfold history_entry in Hm. repeat case_match; by simplify_eq.
Qed.

Lemma last_n_length {A} (n : nat) (l : list A) : (length (last_n n l) ≤ n)%nat.
Proof. unfold last_n. rewrite length_drop. lia. Qed.

(** [polish] returns the fallback text or what the generator answered. When
    it is the generator's answer, the generator was given the system prompt
    first, the transcript last, and between them at most ten messages, all
    human or assistant turns. Without a generator it is the fallback. *)
Theorem polish_answer {P} (llm : option generator) (system_prompt user_query : string)
    (plan : ExecutionPlan P) (results : odict ToolResult)
    (history_messages : list history_message) :
  let answer := polish llm system_prompt user_query plan results history_messages in
  match llm with
  | None => answer = ResultPolisher._fallback_format user_query results
  | Some invoke =>
      answer = ResultPolisher._fallback_format user_query results ∨
      ∃ turns,
        (length turns ≤ 10)%nat ∧ forallb is_turn turns = true ∧
        invoke (SystemMessage system_prompt :: turns ++
                [HumanMessage (_build_context user_query plan results)]) = inl answer
  end.
Proof.
  intros answer. unfold answer, polish, llm_messages. destruct llm as [invoke|]; [| done].
  destruct (history_entries (last_n 10 history_messages)) as [turns|] eqn:Hturns; [| by left].
  destruct (invoke _) as [text|] eqn:Hcall; [| by left].
  right. exists turns. apply history_entries_shape in Hturns as [Hlen Hok].
  pose proof (last_n_length 10 history_messages). split_and!; [lia | done | done].
Qed.

End transcript.

(** * Inference only adds, the estimate stays between bounds *)

Section only_adds.
Context {P : Type}.
Implicit Types (ts : list (Task P)).
Import FastPlanner.

(** On any task list, dependency inference changes nothing but the
    dependency sets, removes no dependency, and adds to a task only ids of
    FILE_OP tasks of the list other than its own id. *)
Theorem analyze_dependencies_only_adds ts :
  Forall2 (λ t t', t' = with_dependencies (dependencies t') t ∧
                   dependencies t ⊆ dependencies t' ∧
                   dependencies t' ⊆ dependencies t ∪ (file_op_ids ts ∖ {[id t]}))
          ts (_analyze_dependencies ts).
Proof.
  unfold _analyze_dependencies. apply Forall2_fmap_r, Forall_Forall2_diag, Forall_forall.
  intros t Hin. unfold compose. cbv beta. case_bool_decide; simpl.
  - split_and!; [done | |].
    + intros d Hd. apply elem_of_add_file_deps. by left.
    + intros d [Hd | (o & Ho & Hio & Hne & ->)]%elem_of_add_file_deps; [set_solver |].
      apply elem_of_union. right. apply elem_of_difference. split; [| set_solver].
      unfold file_op_ids. apply elem_of_list_to_set, list_elem_of_fmap.
      exists o. split; [done |]. by apply list_elem_of_filter.
  - split_and!; [by destruct t | done | set_solver].
Qed.

End only_adds.

Lemma sum_perm (l1 l2 : list Z) : l1 ≡ₚ l2 → foldr Z.add 0 l1 = foldr Z.add 0 l2.
Proof. induction 1; simpl; lia. Qed.

Lemma max_fold_bounds (t : Z) (times : list Z) :
  Forall (λ x, 0 <= x) (t :: times) →
  Forall (λ x, x <= foldl Z.max t times) (t :: times) ∧
  0 <= foldl Z.max t times <= foldr Z.add 0 (t :: times).
Proof.
  revert t. induction times as [|x times IH]; intros t Hpos; simpl.
  - apply Forall_cons in Hpos as [? _]. split; [repeat constructor; lia | lia].
  - apply Forall_cons in Hpos as [Ht Hpos]. pose proof Hpos as [Hx Hrest]%Forall_cons.
    destruct (IH (Z.max t x)) as [Hall Hsum]; [constructor; [lia | done] |].
    apply Forall_cons in Hall as [Hm Hall]. simpl in Hsum. split; [| lia].
    constructor; [lia |]. constructor; [lia | done].
Qed.

Section estimate_bounds.
Context {P : Type}.
Implicit Types (ts : list (Task P)) (td : gmap string (Task P)).
Import FastPlanner.

Lemma mapM_estimates td b times :
  mapM (λ tid, estimated_time_ms <$> td !! tid) b = Some times → times = est_of td <$> b.
Proof.
  revert times. induction b as [|tid b IH]; intros times; cbn; [by intros [= <-] |].
  unfold est_of at 1. destruct (td !! tid) as [t|]; cbn; [| done].
  destruct (mapM _ b) as [times'|]; cbn; [| done].
  intros [= <-]. by rewrite (IH times').
Qed.

Lemma batch_time_bounds td b m :
  (∀ tid, 0 <= est_of td tid) → batch_time td b = Some m →
  Forall (λ tid, est_of td tid <= m) b ∧ 0 <= m <= foldr Z.add 0 (est_of td <$> b).
Proof.
  intros Hpos. unfold batch_time.
  destruct (mapM _ b) as [times|] eqn:Htimes; [| done]. cbn.
  apply mapM_estimates in Htimes as ->.
  destruct b as [|tid b]; [done |]. cbn. intros [= <-].
  destruct (max_fold_bounds (est_of td tid) (est_of td <$> b)) as [Hall Hsum].
  - constructor; [apply Hpos |]. apply Forall_forall.
    intros x (tid' & -> & _)%list_elem_of_fmap. apply Hpos.
  - split; [| exact Hsum]. apply Forall_cons in Hall as [Hm Hall].
    constructor; [done |]. rewrite Forall_forall in Hall. apply Forall_forall.
    intros x Hx. apply Hall, list_elem_of_fmap. eauto.
Qed.

Lemma estimate_fold_bounds td batches z total :
  (∀ tid, 0 <= est_of td tid) →
  foldl (λ total_ms batch,
           total ← total_ms; batch_time_ ← batch_time td batch; Some (total + batch_time_))
        (Some z) batches = Some total →
  Forall (λ tid, z + est_of td tid <= total) (concat batches) ∧
  z <= total <= z + foldr Z.add 0 (est_of td <$> concat batches).
Proof.
  intros Hpos. revert z. induction batches as [|b batches IH]; intros z; simpl.
  - intros [= <-]. split; [constructor | lia].
  - destruct (batch_time td b) as [m|] eqn:Hm; simpl; [| by rewrite estimate_fold_None].
    intros Htotal. destruct (IH _ Htotal) as [Hall Hsum].
    destruct (batch_time_bounds td b m Hpos Hm) as [Hb Hbs].
    rewrite fmap_app, foldr_app.
    assert (∀ (l k : list Z), foldr Z.add (foldr Z.add 0 k) l = foldr Z.add 0 l + foldr Z.add 0 k)
      as Hsplit by (intros l k; induction l; simpl; lia).
    rewrite Hsplit. split; [| lia].
    apply Forall_app. split.
    + eapply Forall_impl; [exact Hb |]. simpl. intros; lia.
    + eapply Forall_impl; [exact Hall |]. simpl. intros; lia.
Qed.

Lemma estimate_bounds {R : PyRuntime} ts total :
  NoDup (id <$> ts) → Forall (λ t, 0 <= estimated_time_ms t) ts →
  _estimate_total_time (_schedule_tasks ts) ts = Some total →
  Forall (λ t, estimated_time_ms t <= total) ts ∧ 0 <= total <= sequential_ms ts.
Proof.
  intros Hnd Hpos Htotal. unfold _estimate_total_time in Htotal.
  set (td := task_dict_of ts) in *.
  assert (∀ t, t ∈ ts → est_of td (id t) = estimated_time_ms t) as Hest.
  { intros t Hin. unfold est_of, td. by rewrite (task_dict_of_lookup ts t Hnd Hin). }
  assert (∀ tid, 0 <= est_of td tid) as Hnonneg.
  { intros tid. unfold est_of. destruct (td !! tid) as [t|] eqn:Ht; simpl; [| lia].
    apply task_dict_of_Some in Ht as [Hin _]. rewrite Forall_forall in Hpos. auto. }
  destruct (estimate_fold_bounds td _ 0 total Hnonneg Htotal) as [Hall Hsum].
  assert (concat (_schedule_tasks ts) ≡ₚ id <$> ts) as Hperm.
  { rewrite schedule_tasks_cover. apply NoDup_Permutation; [apply NoDup_elements | done |].
    intros tid. rewrite elem_of_elements, task_dict_of_dom. apply elem_of_list_to_set. }
  split.
  - apply Forall_forall. intros t Hin. rewrite Forall_forall in Hall.
    specialize (Hall (id t)). rewrite Hest in Hall by done.
    assert (id t ∈ concat (_schedule_tasks ts)) as Hc
      by (rewrite Hperm; apply list_elem_of_fmap; eauto).
    specialize (Hall Hc). lia.
  - split; [lia |]. unfold sequential_ms.
    rewrite (sum_perm _ _ (fmap_Permutation (est_of td) _ _ Hperm)) in Hsum.
    rewrite <- list_fmap_compose in Hsum.
    rewrite (list_fmap_ext (est_of td ∘ id) estimated_time_ms ts) in Hsum; [lia |].
    intros i t Hi. apply Hest. by eapply list_elem_of_lookup_2.
Qed.

End estimate_bounds.

Section plan_estimate.
Context {L : TextLib} {R : PyRuntime}.
Import FastPlanner.

Lemma decompose_estimates_nonneg q intents ctx :
  Forall (λ t : Task dict, 0 <= estimated_time_ms t) (_decompose_tasks q intents ctx).
Proof.
  unfold _decompose_tasks. apply Forall_app. split.
  - pose proof (vision_tasks_shape q 0
                  (filter (λ f, is_image f = true) (uploaded_files ctx))) as Hv.
    induction Hv as [|img t imgs vs (_ & _ & _ & _ & Hest) _ IH];
      constructor; [rewrite Hest; lia | done].
  - eapply Forall_impl; [apply intent_tasks_shape |]. simpl. intros t (_ & _ & -> & _).
    unfold _estimate_task_time. repeat case_match; lia.
Qed.

(** The estimate of a plan that [plan] returns is at least the estimate
    of each of its tasks and at most their sum: batches are counted one
    after another, the tasks of a batch side by side. *)
Theorem plan_estimate_bounds (start_time end_time : Z) (q : string) (ctx : Context)
    (r : PlanRun) :
  plan start_time end_time q ctx = Some r →
  Forall (λ t, estimated_time_ms t <= total_estimated_ms (returned r))
         (tasks (returned r)) ∧
  0 <= total_estimated_ms (returned r) <= sequential_ms (tasks (returned r)).
Proof.
  intros (intents & total & _ & Htotal & ->)%plan_inv. simpl in *.
  apply estimate_bounds; [apply planned_tasks_NoDup | | done].
  unfold _analyze_dependencies. apply Forall_fmap.
  eapply Forall_impl; [apply decompose_estimates_nonneg |]. simpl.
  intros t Ht. by case_bool_decide.
Qed.

(** [plan] raises exactly when the classification does: for a request
    with a continuation keyword and recent turns of which the last is no
    dictionary. Everywhere else it returns a plan. *)
Theorem plan_raises_iff (start_time end_time : Z) (q : string) (ctx : Context) :
  (_classify_intent q ctx = None ↔ last_turn_unreadable q ctx) ∧
  (plan start_time end_time q ctx = None ↔ last_turn_unreadable q ctx).
Proof.
  split; [apply classify_intent_None |]. rewrite plan_None. apply classify_intent_None.
Qed.

(** For a request in which no intent pattern is found and a context
    without uploaded files, away from the case where the classification
    raises, [plan] returns a plan with no task and with
    [requires_llm_polish] set. *)
Theorem plan_simple_qa (start_time end_time : Z) (q : string) (ctx : Context) :
  no_intent_pattern q = true → uploaded_files ctx = [] → ¬ last_turn_unreadable q ctx →
  ∃ r, plan start_time end_time q ctx = Some r ∧
       tasks (returned r) = [] ∧ requires_llm_polish (returned r) = true.
Proof.
  intros Hno Hfiles Hok.
  destruct (_classify_intent q ctx) as [intents|] eqn:Hintents;
    [| by apply classify_intent_None in Hintents].
  pose proof (classify_no_pattern q ctx intents Hno Hfiles Hintents) as ->.
  destruct (plan_unfold start_time end_time q ctx _ Hintents) as (total & _ & ->).
  eexists. split; [done |]. simpl. split; [| done].
  unfold _decompose_tasks. by rewrite Hfiles.
Qed.

End plan_estimate.

Lemma plan_estimate_bounds_witness :
  ∃ r, @FastPlanner.plan py_text forward_runtime 0 0 csv_request csv_context = Some r ∧
       Forall (λ t, estimated_time_ms t <= total_estimated_ms (FastPlanner.returned r))
              (tasks (FastPlanner.returned r)) ∧
       0 <= total_estimated_ms (FastPlanner.returned r)
         <= sequential_ms (tasks (FastPlanner.returned r)).
Proof.
  destruct (@FastPlanner.plan py_text forward_runtime 0 0 csv_request csv_context)
    as [r|] eqn:Hplan.
  - exists r. split; [reflexivity |].
    exact (@plan_estimate_bounds py_text forward_runtime 0 0 csv_request csv_context r Hplan).
  - vm_compute in Hplan. discriminate Hplan.
Defined.

Lemma plan_simple_qa_witness :
  ∃ r, @FastPlanner.plan py_text forward_runtime 0 7 "什么是人工智能?" (mkContext [] [] []) = Some r ∧
       tasks (FastPlanner.returned r) = [] ∧
       requires_llm_polish (FastPlanner.returned r) = true.
Proof.
  apply (@plan_simple_qa py_text forward_runtime).
  - vm_compute. reflexivity.
  - reflexivity.
  - intros [_ [shown Hlast]]. discriminate Hlast.
Defined.

(** * The fallback with several successes *)

Section fallback_many.
Import ResultPolisher.

Lemma steps_from_lines i rs r :
  r ∈ rs → ∃ j, Forall (λ line, line ∈ steps_from i rs) (step_lines j r).
Proof.
  revert i. induction rs as [|r' rs IH]; intros i; [by intros ?%elem_of_nil |].
  change (steps_from i (r' :: rs)) with (step_lines i r' ++ steps_from (S i) rs).
  intros [-> | Hin]%elem_of_cons.
  - exists i. apply Forall_forall. intros line Hline. apply elem_of_app. by left.
  - destruct (IH (S i) Hin) as [j Hj]. exists j.
    eapply Forall_impl; [exact Hj |]. cbv beta. intros line Hline. apply elem_of_app. by right.
Qed.

(** With two or more successful results the answer holds the question and,
    for every successful result, a step line naming its tool and a line with
    its output, cut to 500 code points when longer. *)
Theorem fallback_lists_successes (user_query : string) (results : odict ToolResult) :
  let successes := List.filter success (od_values results) in
  match successes with
  | _ :: _ :: _ =>
      str_in user_query (_fallback_format user_query results) = true ∧
      Forall (λ r, str_in ("(" +:+ r_tool r +:+ ")**:") (_fallback_format user_query results) = true ∧
                   str_in (PolishCall.capped 500 (py_str (output r)))
                          (_fallback_format user_query results) = true)
             successes
  | _ => True
  end.
Proof.
  intros successes. unfold successes, _fallback_format.
  destruct (List.filter success (od_values results)) as [|r1 [|r2 rs]] eqn:Hs; try done.
  split.
  - apply (str_in_join_lines _ ("**问题**: " +:+ user_query +:+ nl)).
    + apply str_in_append_r, str_in_prefix, prefix_append.
    + apply elem_of_cons. by left.
  - apply Forall_forall. intros r Hr.
    destruct (steps_from_lines 1 (r1 :: r2 :: rs) r Hr) as [j Hj].
    unfold step_lines in Hj. apply Forall_cons in Hj as [Hhead [Hout _]%Forall_cons].
    split.
    + eapply str_in_join_lines; [| apply elem_of_cons; right; exact Hhead].
      do 2 apply str_in_append_r.
      apply (str_in_append_r _ " " ("(" +:+ r_tool r +:+ ")**:")), str_in_refl.
    + eapply str_in_join_lines; [| apply elem_of_cons; right; exact Hout].
      apply str_in_prefix, prefix_append.
Qed.

End fallback_many.
